(** * dgrants: cart ratio allocation, token conversion, round status and
      per-round grant summaries

    A shallow embedding of the parts of
    [app/src/store/cart.ts] and [app/src/utils/data/grantRounds.ts]
    that carry the invariants of the donation flow:

    - [Cart.fixDonationRoundingErrors]  (cart.ts, lines 514-528)
    - [Cart.getConvertedAmount]         (cart.ts, lines 104-108)
    - [GrantRounds.roundStatus]         (grantRounds.ts, lines 186-207)
    - [GrantRounds.getPredictionsForGrantInRound] and
      [GrantRounds.getGrantsGrantRoundDetails] (grantRounds.ts, lines 332-374)

    Conventions.  An ethers [BigNumber] is an unbounded integer, modelled
    as [Z].  A JavaScript object used as a dictionary is a [gmap] with
    string keys.  A call either returns a value or throws; this is the
    type [outcome].  A JavaScript [number] is an IEEE binary64 value; the
    arithmetic the code performs on numbers is the interface [JSNumber],
    instantiated by binary64 ([float]) and by the exact rationals ([Qc]). *)

From Stdlib Require Import ZArith QArith Qcanon Lia.
From Stdlib Require Import Floats.PrimFloat.
From Stdlib Require Import Sorting.Sorted.
From stdpp Require Import base option list strings gmap pretty.

Local Open Scope Z_scope.

(** ** Outcomes of a JavaScript call *)

(** What a [throw] carries.  [Error msg] is [new Error(msg)]; [TypeError]
    is the engine's error for reading a property of [undefined]. *)
Inductive exn : Type :=
| Error (message : string)
| TypeError.

Inductive outcome (A : Type) : Type :=
| Returns (value : A)
| Throws (e : exn).

Arguments Returns {A} value.
Arguments Throws {A} e.

Definition bind {A B : Type} (o : outcome A) (k : A -> outcome B) : outcome B :=
  match o with
  | Returns a => k a
  | Throws e => Throws e
  end.

#[global] Instance outcome_ret : MRet outcome := fun A a => Returns a.
#[global] Instance outcome_bind : MBind outcome := fun A B k o => bind o k.
#[global] Instance outcome_fmap : FMap outcome :=
  fun A B f o => bind o (fun a => Returns (f a)).

(** ** Numbers *)

(** The operations of [number] that the embedded code uses. *)
Class JSNumber (N : Type) : Type := {
  num_zero : N;
  num_one : N;
  num_mul : N -> N -> N;       (* a * b  *)
  num_div : N -> N -> N;       (* a / b  *)
  num_eqb : N -> N -> bool     (* a == b *)
}.

(** The implementation's numbers: IEEE 754 binary64. *)
#[global] Instance binary64 : JSNumber float := {
  num_zero := 0%float;
  num_one := 1%float;
  num_mul := PrimFloat.mul;
  num_div := PrimFloat.div;
  num_eqb := PrimFloat.eqb
}.

(** Exact arithmetic: the field of rationals in canonical form. *)
#[global] Instance exact : JSNumber Qc := {
  num_zero := 0%Qc;
  num_one := 1%Qc;
  num_mul := Qcmult;
  num_div := Qcdiv;
  num_eqb := fun a b => bool_decide (a = b)
}.

(** * The cart store *)
Module Cart.

(** Modelled from the spec: [WAD], the fixed-point whole ("scale =
    10^18").  The constant is imported from [src/utils/constants];
    cart.ts documents it where the ratios are computed: "WAD = 1e18 =
    100%". *)
Definition WAD : Z := 10 ^ 18.

(** The message of the error thrown by [fixDonationRoundingErrors]; the
    specification calls this failure [InvariantViolation]. *)
Definition InvariantViolation : exn := Error "Ratios sum to greater than 100%".

(** Modelled from the spec: a donation is a grant identifier, a
    contribution token, a fixed-point ratio and the target rounds.  The
    type is [Donation] of [@dgrants/types]; the fields are those of the
    object that [getCartDonationInputs] builds,
    [{ grantId, token: tokenAddress, ratio, rounds }], where [ratio] is a
    [BigNumber]. *)
Record Donation : Type := mkDonation {
  grantId : Z;
  token : string;
  ratio : Z;
  rounds : list string
}.

#[global] Instance Donation_eq_dec : EqDecision Donation.
Proof. solve_decision. Defined.

(** [{ ...donation, ratio: r }] *)
Definition withRatio (donation : Donation) (r : Z) : Donation :=
  {| grantId := grantId donation; token := token donation;
     ratio := r; rounds := rounds donation |}.

(** [donations.reduce((acc, curr) =>
       acc.add(curr.token === token ? curr.ratio : 0), BigNumber.from(0))] *)
Definition tokenSum (donations : list Donation) (tok : string) : Z :=
  fold_left
    (fun acc curr => acc + (if decide (token curr = tok) then ratio curr else 0))
    donations 0.

(** The body of the [forEach] callback at position [index] of the array
    [donations], which it updates in place. *)
Definition fixAt (donations : list Donation) (index : nat) : outcome (list Donation) :=
  match donations !! index with
  | None => Returns donations
  | Some donation =>
      let sum := tokenSum donations (token donation) in
      if sum >? WAD then Throws InvariantViolation
      else
        let shortfall := WAD - sum in
        Returns (<[index := withRatio donation (ratio donation + shortfall)]> donations)
  end.

(** [donations.forEach(...)]: the callback runs at [index], [index + 1],
    ... for [count] positions, each run seeing the writes of the earlier
    ones; a throw ends the loop. *)
Fixpoint forEachFrom (count index : nat) (donations : list Donation)
  : outcome (list Donation) :=
  match count with
  | O => Returns donations
  | S count' =>
      donations' ← fixAt donations index;
      forEachFrom count' (S index) donations'
  end.

Definition fixDonationRoundingErrors (donations : list Donation)
  : outcome (list Donation) :=
  forEachFrom (length donations) 0 donations.

(** [getConvertedAmount(amount, tokenAddress, direction = 1)], reading
    the store's [quotes] table (token address to exchange rate).  An
    omitted [direction] is [None].  The body has no [throw] and performs
    only arithmetic on numbers and a property read on the [quotes]
    object, so every path returns. *)
Definition getConvertedAmount {N : Type} `{JSNumber N}
    (quotes : gmap string N) (amount : N) (tokenAddress : string)
    (direction : option N) : outcome N :=
  let direction := default num_one direction in
  let exchangeRate := default num_zero (quotes !! tokenAddress) in
  Returns (num_mul amount
             (if num_eqb direction num_one then exchangeRate
              else num_div num_one exchangeRate)).

(** The precondition of the allocator, as an executable test: for the
    token of every donation, the input ratios of that token sum to at
    most [WAD]. *)
Definition ratiosWithinWAD (donations : list Donation) : bool :=
  forallb (fun d => tokenSum donations (token d) <=? WAD) donations.

(** Position [index] holds the first donation of its token. *)
Definition firstOfToken (donations : list Donation) (index : nat) (tok : string) : bool :=
  bool_decide (tok ∉ map token (take index donations)).

End Cart.

(** * Grant rounds *)
Module GrantRounds.

(** ** Round status *)

(** The three strings the [status] field can hold. *)
Inductive Status : Type := Upcoming | Active | Completed.

#[global] Instance Status_eq_dec : EqDecision Status.
Proof. solve_decision. Defined.

(** [a >= b] and [a < b] on numbers that are not NaN. *)
Definition Qgeb (a b : Q) : bool := Qle_bool b a.
Definition Qltb (a b : Q) : bool := negb (Qle_bool b a).

(** [const now = Date.now() / 1000]: milliseconds to seconds. *)
Definition unixNow (dateNow : Z) : Q := (inject_Z dateNow / 1000)%Q.

(** The [status] expression of [getGrantRound].  [startTime] and
    [endTime] are the integers that [BigNumber.from(..).toNumber()]
    yields for the round's timestamps. *)
Definition roundStatus (now : Q) (startTime endTime : Z) : Status :=
  if Qgeb now (inject_Z startTime) && Qltb now (inject_Z endTime) then Active
  else if Qltb now (inject_Z startTime) then Upcoming
  else Completed.

(** ** Records of [@dgrants/types]

    Modelled from the spec: the data model of rounds, contributions and
    predictions.  The type declarations are in the package
    [@dgrants/types]; each record below has the fields that the embedded
    code reads or writes, under the source's names except where two
    records share a name (the fields of the summary are prefixed with
    [details], the [predictions] dictionary of a round's CLR data is
    [roundPredictions]). *)

Record TokenInfo : Type := mkTokenInfo {
  tokenAddress : string;
  symbol : string;
  decimals : Z
}.

Record GrantRound : Type := mkGrantRound {
  address : string;
  metaPtr : string;
  startTime : Z;
  endTime : Z;
  status : Status;
  matchingToken : TokenInfo;
  donationToken : TokenInfo
}.

(** [name] and [grants] may be [undefined]. *)
Record GrantRoundMetadataResolution : Type := mkMetadata {
  name : option string;
  grants : option (list string)
}.

Section Records.
Context {number : Type}.

Record Contribution : Type := mkContribution {
  grantId : string;
  payer : string;
  amount : number;
  inRounds : list string;
  txHash : string
}.

(** One sample of the matching curve. *)
Record Prediction : Type := mkPrediction {
  predictionPoint : Z;
  predictedGrantMatch : number;
  predictionDiff : number
}.

Record GrantPrediction : Type := mkGrantPrediction {
  predictedGrantId : string;
  predictions : list Prediction
}.

(** [roundPredictions] is the [predictions] dictionary (grant id to
    [GrantPrediction]); it may be [undefined]. *)
Record GrantRoundCLR : Type := mkGrantRoundCLR {
  grantRound : string;
  totalPot : number;
  matchingTokenDecimals : Z;
  roundContributions : list Contribution;
  roundPredictions : option (gmap string GrantPrediction)
}.

(** The object literal returned by the callback of
    [getGrantsGrantRoundDetails]; [None] is [undefined]. *)
Record GrantsRoundDetails : Type := mkDetails {
  detailsGrantId : string;
  detailsAddress : string;
  detailsMetaPtr : string;
  detailsName : string;
  detailsMatchingToken : TokenInfo;
  detailsDonationToken : TokenInfo;
  contributions : list Contribution;
  balance : string;
  matching : option string;
  prediction1 : option string;
  prediction10 : option string;
  prediction100 : option string
}.

(** The first argument of [formatNumber]: a number or a string. *)
Inductive numberish : Type :=
| NumberIn (n : number)
| StringIn (s : string).

End Records.

Arguments Contribution : clear implicits.
Arguments Prediction : clear implicits.
Arguments GrantPrediction : clear implicits.
Arguments GrantRoundCLR : clear implicits.
Arguments GrantsRoundDetails : clear implicits.
Arguments numberish : clear implicits.

(** ** What the aggregator imports

    The helpers below live outside the two embedded files
    ([../utils], [./contributions]) or are built into the language; the
    aggregator is embedded over any implementation of them.  Each is a
    function that returns. *)
Class Externals (number : Type) : Type := {
  (* the number literal 0 and a + b *)
  zero : number;
  add : number -> number -> number;
  (* Number.prototype.toString *)
  numberToString : number -> string;
  (* the property key that predictions[Number(grantId)] reads *)
  numberKey : string -> string;
  (* formatNumber(value, decimals) of ../utils *)
  formatNumber : numberish number -> nat -> string;
  (* filterContributionsByGrantId(grantId, contributions) of ./contributions *)
  filterContributionsByGrantId :
    string -> list (Contribution number) -> list (Contribution number);
  (* filterContributionsByGrantRound(round, contributions) of ./contributions *)
  filterContributionsByGrantRound :
    GrantRound -> list (Contribution number) -> list (Contribution number)
}.

Section Aggregator.
Context {number : Type} {externals : Externals number}.

(** [roundData.predictions && roundData.predictions[Number(grantId)]].
    The callers pass [grantRoundsCLRData[round.address]], which is
    [undefined] ([None]) when the record has no entry for the round;
    reading [.predictions] of [undefined] throws a [TypeError]. *)
Definition getPredictionsForGrantInRound (grantId : string)
    (roundData : option (GrantRoundCLR number))
  : outcome (option (GrantPrediction number)) :=
  match roundData with
  | None => Throws TypeError
  | Some roundData =>
      Returns (match roundPredictions roundData with
               | None => None
               | Some predictions => predictions !! numberKey grantId
               end)
  end.

(** [predictions && formatNumber(predictions.predictions[index].field, 2)] *)
Definition formatPrediction (predictions : option (GrantPrediction number))
    (index : nat) (field : Prediction number -> number) : outcome (option string) :=
  match predictions with
  | None => Returns None
  | Some grantPrediction =>
      match GrantRounds.predictions grantPrediction !! index with
      | None => Throws TypeError
      | Some prediction => Returns (Some (formatNumber (NumberIn (field prediction)) 2))
      end
  end.

(** [roundsMetadata[round.metaPtr].name]: a property read on the entry. *)
Definition metadataName (roundsMetadata : gmap string GrantRoundMetadataResolution)
    (round : GrantRound) : outcome (option string) :=
  match roundsMetadata !! metaPtr round with
  | None => Throws TypeError
  | Some metadata => Returns (name metadata)
  end.

(** The callback of [rounds.map].  The elements of [roundContributions]
    are objects, so the test [contrib ? ... : carr] of the reducer always
    takes its first branch, [contrib.amount + carr]. *)
Definition roundDetails (grantId : string)
    (roundsMetadata : gmap string GrantRoundMetadataResolution)
    (grantRoundsCLRData : gmap string (GrantRoundCLR number))
    (grant_contributions : list (Contribution number))
    (round : GrantRound) : outcome (GrantsRoundDetails number) :=
  predictions ← getPredictionsForGrantInRound grantId (grantRoundsCLRData !! address round);
  let roundContributions := filterContributionsByGrantRound round grant_contributions in
  let roundsContributionTotal :=
    numberToString
      (fold_left (fun carr contrib => add (amount contrib) carr) roundContributions zero) in
  name ← metadataName roundsMetadata round;
  matching ← formatPrediction predictions 0 predictedGrantMatch;
  prediction1 ← formatPrediction predictions 1 predictionDiff;
  prediction10 ← formatPrediction predictions 2 predictionDiff;
  prediction100 ← formatPrediction predictions 3 predictionDiff;
  Returns {|
    detailsGrantId := grantId;
    detailsAddress := address round;
    detailsMetaPtr := metaPtr round;
    detailsName := default "" name;
    detailsMatchingToken := matchingToken round;
    detailsDonationToken := donationToken round;
    contributions := roundContributions;
    balance := formatNumber (StringIn roundsContributionTotal) 2;
    matching := matching;
    prediction1 := prediction1;
    prediction10 := prediction10;
    prediction100 := prediction100
  |}.

(** [array.map(callback)]: the first throw ends the call. *)
Fixpoint arrayMap {A B : Type} (callback : A -> outcome B) (array : list A)
  : outcome (list B) :=
  match array with
  | [] => Returns []
  | a :: array' =>
      b ← callback a;
      bs ← arrayMap callback array';
      Returns (b :: bs)
  end.

Definition getGrantsGrantRoundDetails (grantId : string) (rounds : list GrantRound)
    (roundsMetadata : gmap string GrantRoundMetadataResolution)
    (grantRoundsCLRData : gmap string (GrantRoundCLR number))
    (contributions : list (Contribution number))
  : outcome (list (GrantsRoundDetails number)) :=
  let grant_contributions := filterContributionsByGrantId grantId contributions in
  arrayMap (roundDetails grantId roundsMetadata grantRoundsCLRData grant_contributions)
           rounds.

(** Membership of a grant in a round, as the cart store tests it:
    [metadata && metadata.grants?.includes(grantId)]. *)
Definition isMember (grantId : string)
    (roundsMetadata : gmap string GrantRoundMetadataResolution)
    (round : GrantRound) : bool :=
  match roundsMetadata !! metaPtr round with
  | Some metadata => bool_decide (grantId ∈ default [] (grants metadata))
  | None => false
  end.

(** The sample of a grant's prediction taken at a prediction point. *)
Definition atPoint (point : Z) (grantPrediction : GrantPrediction number)
  : option (Prediction number) :=
  List.find (fun prediction => predictionPoint prediction =? point)
            (predictions grantPrediction).

(** The prediction points that [getGrantRoundGrantData] passes to
    [clr.predict]. *)
Definition predictionPoints : list Z := [0; 1; 10; 100; 1000; 10000].

(** A round the callback can summarise: its CLR entry and its metadata
    exist, and the grant's prediction, when there is one, has the four
    samples that are read. *)
Definition summarisable (grantId : string)
    (roundsMetadata : gmap string GrantRoundMetadataResolution)
    (grantRoundsCLRData : gmap string (GrantRoundCLR number))
    (round : GrantRound) : bool :=
  match grantRoundsCLRData !! address round with
  | None => false
  | Some roundData =>
      bool_decide (is_Some (roundsMetadata !! metaPtr round)) &&
      match getPredictionsForGrantInRound grantId (Some roundData) with
      | Returns (Some grantPrediction) =>
          bool_decide (4 <= length (predictions grantPrediction))%nat
      | _ => true
      end
  end.

End Aggregator.

End GrantRounds.

(** * The cart store: state and getters *)
Module CartStore.
Import GrantRounds.

(** Modelled from the spec: a grant of the registry.  The type is [Grant]
    of [@dgrants/types]; [setCart] reads its [id] and copies the other
    fields into the cart item. *)
Record Grant : Type := mkGrant {
  id : Z;
  owner : string;
  payee : string;
  grantMetaPtr : string
}.

(** The operations on the amounts of the cart: [a + b], the literal [0],
    [a > b] and the text of an amount in a template literal or under
    [String(..)]. *)
Class Amounts (number : Type) : Type := {
  amount_add : number -> number -> number;
  amount_zero : number;
  amount_gtb : number -> number -> bool;
  amount_toString : number -> string
}.

(** What [updateCart] takes from the language and from ethers:
    [BigNumber.from(val).toHexString()], which throws for a string that
    is not a number, [isAddress] and [Number(data)]. *)
Class Edits (number : Type) : Type := {
  toHex : string -> outcome string;
  isAddress : string -> bool;
  stringToNumber : string -> number
}.

Section Store.
Context {number : Type}.

(** [CartItemOptions] of [src/types], the form kept in localStorage.
    The token address of a new item is that of
    [DEFAULT_CONTRIBUTION_TOKEN?.address], which is [undefined] ([None])
    when no supported token has the symbol DAI. *)
Record CartItemOptions : Type := mkOptions {
  grantId : Z;
  contributionTokenAddress : option string;
  contributionAmount : number
}.

(** [CartItem] of [src/types]:
    [{ ...grant, grantId, contributionAmount, contributionToken }];
    [itemGrant] holds the fields spread from the grant, [None] when no
    grant of the data store has the id. *)
Record CartItem : Type := mkItem {
  itemGrant : option Grant;
  itemGrantId : Z;
  itemContributionAmount : number;
  contributionToken : TokenInfo
}.

(** What the cart store reads from the other stores and from
    [src/utils/chains]. *)
Record Env : Type := mkEnv {
  grants : option (list Grant);                       (* grants.value *)
  SUPPORTED_TOKENS : list TokenInfo;
  SUPPORTED_TOKENS_MAPPING : gmap string TokenInfo;
  DEFAULT_CONTRIBUTION_AMOUNT : number                (* 5 *)
}.

(** The refs of the store and the entry of localStorage under the key
    'cart' (the array that [JSON.stringify] is given). *)
Record Store : Type := mkStore {
  lsCart : list CartItemOptions;
  cart : list CartItem;
  localStorageCart : list CartItemOptions;
  cartStatus : string
}.

(** An element of [newCart] is a [CartItemOptions] or a [CartItem]; the
    test ['contributionToken' in item] tells them apart. *)
Definition newItem : Type := CartItemOptions + CartItem.

Definition newItemGrantId (item : newItem) : Z :=
  match item with inl o => grantId o | inr i => itemGrantId i end.

Definition newItemAmount (item : newItem) : number :=
  match item with inl o => contributionAmount o | inr i => itemContributionAmount i end.

(** [tokenAddr], as the property key that reads the token mapping; the
    key of [undefined] is the string "undefined". *)
Definition newItemTokenKey (item : newItem) : string :=
  match item with
  | inl o => default "undefined" (contributionTokenAddress o)
  | inr i => tokenAddress (contributionToken i)
  end.

(** [grants.value?.filter((grant) => grant.id === grantId)[0]] *)
Definition findGrant (env : Env) (grantId : Z) : option Grant :=
  match grants env with
  | None => None
  | Some grants => head (filter (fun grant => id grant = grantId) grants)
  end.

(** The callback of [newCart.forEach] in [setCart], on the two arrays
    that it fills; [token.address] throws when the token is not in the
    mapping. *)
Definition pushItem (env : Env) (acc : list CartItemOptions * list CartItem)
    (item : newItem) : outcome (list CartItemOptions * list CartItem) :=
  let grantId := newItemGrantId item in
  let contributionAmount := newItemAmount item in
  let grant := findGrant env grantId in
  match SUPPORTED_TOKENS_MAPPING env !! newItemTokenKey item with
  | None => Throws TypeError
  | Some token =>
      Returns (acc.1 ++ [mkOptions grantId (Some (tokenAddress token)) contributionAmount],
               acc.2 ++ [mkItem grant grantId contributionAmount token])
  end.

Fixpoint pushItems (env : Env) (acc : list CartItemOptions * list CartItem)
    (newCart : list newItem) : outcome (list CartItemOptions * list CartItem) :=
  match newCart with
  | [] => Returns acc
  | item :: newCart' =>
      acc' ← pushItem env acc item;
      pushItems env acc' newCart'
  end.

(** [setCart(newCart)].  The refs and localStorage are written after
    the loop, so a throw of the loop leaves the store as it was; writes
    to localStorage are taken to succeed. *)
Definition setCart (env : Env) (store : Store) (newCart : list newItem) : outcome Store :=
  match newCart with
  | [] => Returns (mkStore [] [] [] (cartStatus store))
  | _ =>
      built ← pushItems env ([], []) newCart;
      Returns (mkStore built.1 built.2 built.1 (cartStatus store))
  end.

(** [addToCart(grantId)] *)
Definition addToCart (env : Env) (store : Store) (grantId : option Z) : outcome Store :=
  match grantId with
  | None => Returns store
  | Some grantId =>
      let cartGrantIds := map itemGrantId (cart store) in
      if bool_decide (grantId ∈ cartGrantIds) then Returns store
      else
        let DEFAULT_CONTRIBUTION_TOKEN :=
          List.find (fun token => bool_decide (symbol token = "DAI")) (SUPPORTED_TOKENS env) in
        let newCart :=
          map inl (lsCart store) ++
          [inl (mkOptions grantId (tokenAddress <$> DEFAULT_CONTRIBUTION_TOKEN)
                          (DEFAULT_CONTRIBUTION_AMOUNT env))] in
        setCart env store newCart
  end.

(** [removeFromCart(grantId)] *)
Definition removeFromCart (env : Env) (store : Store) (grantId : option Z) : outcome Store :=
  match grantId with
  | None => Returns store
  | Some grantId =>
      setCart env store
        (map inr (filter (fun grant => itemGrantId grant <> grantId) (cart store)))
  end.

(** [clearCart()] and [clearCartState()] *)
Definition clearCart (env : Env) (store : Store) : outcome Store :=
  setCart env store [].

Definition clearCartState (env : Env) (store : Store) : outcome Store :=
  store' ← clearCart env store;
  Returns (mkStore (lsCart store') (cart store') (localStorageCart store') "").

(** [isInCart(grantId)] *)
Definition lsCartGrantIds (store : Store) : list Z := map grantId (lsCart store).

Definition isInCart (store : Store) (grantId : Z) : bool :=
  let grantIds := lsCartGrantIds store in
  bool_decide (grantId ∈ grantIds).

(** [cartItemsCount] *)
Definition cartItemsCount (store : Store) : nat := length (cart store).

(** ** The cart summary *)

Context {amounts : Amounts number}.

(** One step of the loop of [cartSummary] on the object [output], whose
    keys are kept in insertion order:
    [if (tokenAddress in output) output[tokenAddress] += amount;
     else output[tokenAddress] = amount]. *)
Fixpoint addToSummary (output : list (string * number)) (tokenAddress : string)
    (amount : number) : list (string * number) :=
  match output with
  | [] => [(tokenAddress, amount)]
  | (key, total) :: output' =>
      if decide (key = tokenAddress) then (key, amount_add total amount) :: output'
      else (key, total) :: addToSummary output' tokenAddress amount
  end.

(** [cartSummary]: token address to the total amount of that token. *)
Definition cartSummary (cart : list CartItem) : list (string * number) :=
  fold_left
    (fun output item =>
       addToSummary output (tokenAddress (contributionToken item))
                    (itemContributionAmount item))
    cart [].

(** [summary.slice(0, -3)] *)
Definition sliceOffLast3 (summary : string) : string :=
  String.substring 0 (String.length summary - 3) summary.

(** The callback of the [reduce] of [cartSummaryString];
    [SUPPORTED_TOKENS_MAPPING[tokenAddr].symbol] throws for a token that
    is not in the mapping. *)
Definition appendSummary (env : Env) (acc : string) (entry : string * number)
  : outcome string :=
  let amount := if amount_gtb entry.2 amount_zero then entry.2 else amount_zero in
  match SUPPORTED_TOKENS_MAPPING env !! entry.1 with
  | None => Throws TypeError
  | Some token =>
      Returns (acc +:+ amount_toString amount +:+ " " +:+ symbol token +:+ " + ")
  end.

Fixpoint reduceSummary (env : Env) (acc : string) (entries : list (string * number))
  : outcome string :=
  match entries with
  | [] => Returns acc
  | entry :: entries' =>
      acc' ← appendSummary env acc entry;
      reduceSummary env acc' entries'
  end.

(** [cartSummaryString], such as "12 DAI + 4 GTC + 10 USDC". *)
Definition cartSummaryString (env : Env) (cart : list CartItem) : outcome string :=
  summary ← reduceSummary env "" (cartSummary cart);
  Returns (sliceOffLast3 summary).

(** ** Editing an item *)

Context {edits : Edits number}.

(** [{ ..._lsCart[index], contributionTokenAddress: address }] and
    [{ ..._lsCart[index], contributionAmount: amount }] *)
Definition withTokenAddress (address : string) (item : CartItemOptions) : CartItemOptions :=
  mkOptions (grantId item) (Some address) (contributionAmount item).

Definition withAmount (amount : number) (item : CartItemOptions) : CartItemOptions :=
  mkOptions (grantId item) (contributionTokenAddress item) amount.

(** [_lsCart[index] = ...] with [index] the result of [findIndex]: the
    first item of the grant is replaced; for no such item ([index] is
    -1) the write sets a property that is not an element, and the
    elements stay as they are. *)
Definition writeAtGrant (wanted : Z) (update : CartItemOptions -> CartItemOptions)
    (_lsCart : list CartItemOptions) : list CartItemOptions :=
  match list_find (fun item => grantId item = wanted) _lsCart with
  | Some (index, _) => alter update index _lsCart
  | None => _lsCart
  end.

(** [updateCart(grantId, data)].  The array [_lsCart] is [lsCart.value]
    itself, so the write to it is kept when [setCart] throws; the result
    is the store after the call and what the call threw, if anything. *)
Definition updateCart (env : Env) (store : Store) (wanted : Z) (data : string + number)
  : Store * option exn :=
  let finish (_lsCart : list CartItemOptions) : Store * option exn :=
    let edited := mkStore _lsCart (cart store) (localStorageCart store) (cartStatus store) in
    match setCart env edited (map inl _lsCart) with
    | Returns store' => (store', None)
    | Throws e => (edited, Some e)
    end in
  match data with
  | inl text =>
      match toHex text with
      | Throws e => (store, Some e)
      | Returns hex =>
          if isAddress hex
          then finish (writeAtGrant wanted (withTokenAddress hex) (lsCart store))
          else finish (writeAtGrant wanted (withAmount (stringToNumber text)) (lsCart store))
      end
  | inr amount => finish (writeAtGrant wanted (withAmount amount) (lsCart store))
  end.

End Store.

Arguments CartItemOptions : clear implicits.
Arguments CartItem : clear implicits.
Arguments Env : clear implicits.
Arguments Store : clear implicits.
Arguments newItem : clear implicits.

End CartStore.

(** * Checkout: the donations of a cart *)
Module Checkout.
Import GrantRounds CartStore.

(** A swap path is an array of token addresses (Uniswap V2 style) or a
    byte string that starts with the input token (Uniswap V3 style). *)
Inductive SwapPath : Type :=
| PathV2 (tokens : list string)
| PathV3 (bytes : string).

(** Modelled from the spec: a swap of the donation transaction.  The
    types are [SwapSummary] and [SwapSummaryUniV2] of [@dgrants/types];
    the fields are those of the object that [getCartDonationInputs]
    builds, [{ amountIn, amountOutMin, path }]. *)
Record Swap : Type := mkSwap {
  amountIn : Z;
  amountOutMin : Z;
  path : SwapPath
}.

(** What the checkout takes from ethers.  [getAddress] checksums an
    address and throws for anything else, [undefined] ([None]) included;
    [hexDataSlice] and [parseUnits] throw for malformed text. *)
Class Ethers : Type := {
  getAddress : option string -> outcome string;
  hexDataSlice : string -> nat -> nat -> outcome string;
  parseUnits : string -> Z -> outcome Z
}.

(** The two addresses of [src/utils/constants] and [src/utils/chains]
    that the checkout compares with. *)
Record Chain : Type := mkChain {
  ETH_ADDRESS : string;
  WETH_ADDRESS : string
}.

(** [a.div(b)] on [BigNumber]s: the quotient rounded towards zero, and a
    numeric fault for a zero divisor. *)
Definition bigDiv (a b : Z) : outcome Z :=
  if b =? 0 then Throws (Error "division-by-zero") else Returns (Z.quot a b).

Section Donations.
Context {number : Type} {amounts : Amounts number} {ethers : Ethers}.
Context (chain : Chain) (env : Env number) (grantRounds : option (list GrantRound)).

(** [getInputToken(swap)] *)
Definition getInputToken (swap : Swap) : outcome string :=
  match path swap with
  | PathV2 tokens => getAddress (head tokens)
  | PathV3 bytes =>
      slice ← hexDataSlice bytes 0 20;
      getAddress (Some slice)
  end.

(** [swaps.find((swap) => getInputToken(swap) === tokenAddress)] *)
Fixpoint findSwap (tokenAddress : string) (swaps : list Swap) : outcome (option Swap) :=
  match swaps with
  | [] => Returns None
  | swap :: swaps' =>
      inputToken ← getInputToken swap;
      if decide (inputToken = tokenAddress) then Returns (Some swap)
      else findSwap tokenAddress swaps'
  end.

(** The callback of [cart.value.map] in [getCartDonationInputs]. *)
Definition donationOf (swaps : list Swap) (item : CartItem number) : outcome Cart.Donation :=
  let grantId := itemGrantId item in
  let contributionAmount := itemContributionAmount item in
  let contributionToken := contributionToken item in
  let isEth := bool_decide (GrantRounds.tokenAddress contributionToken = ETH_ADDRESS chain) in
  tokenAddress ← getAddress (Some (if isEth then WETH_ADDRESS chain
                                   else GrantRounds.tokenAddress contributionToken));
  rounds ← match grantRounds with
           | None => Returns []
           | Some [] => Throws TypeError
           | Some (round :: _) => Returns [address round]
           end;
  decimals ← (if isEth then Returns 18
              else match SUPPORTED_TOKENS_MAPPING env !! tokenAddress with
                   | None => Throws TypeError
                   | Some token => Returns (decimals token)
                   end);
  donationAmount ← parseUnits (amount_toString contributionAmount) decimals;
  swap ← findSwap tokenAddress swaps;
  match swap with
  | None => Throws (Error "Could not find matching swap for donation")
  | Some swap =>
      ratio ← bigDiv (donationAmount * Cart.WAD) (amountIn swap);
      Returns (Cart.mkDonation grantId tokenAddress ratio rounds)
  end.

(** The [donations] that [getCartDonationInputs] returns for the swaps
    it has obtained: the ratios of the cart, with the rounding fixed. *)
Definition getCartDonations (swaps : list Swap) (cart : list (CartItem number))
  : outcome (list Cart.Donation) :=
  donations ← arrayMap (donationOf swaps) cart;
  Cart.fixDonationRoundingErrors donations.

End Donations.

End Checkout.

(** * The cart and the rounds *)
Module CartRounds.
Import GrantRounds CartStore.

Section InRound.
Context {number : Type}.

(** The store [grantRoundMetadata] as [cartInRound] reads it: for the
    [metaPtr] of a round, the [grants] field of its metadata, a list of
    grant ids that may be [undefined] ([Some None]); a [metaPtr] without
    metadata has no entry.  The ids are numbers here: [includes] is
    passed the numeric [grantId] of a cart item. *)
Definition MetadataGrants : Type := gmap string (option (list Z)).

(** The callback of the inner [reduce] of [cartInRound]:
    [inRound || metadata[round.metaPtr].grants?.includes(grantId) || false].
    The metadata is read only when [inRound] is false, and the read of
    [.grants] throws when the round has no metadata. *)
Definition inRoundStep (grantRoundMetadata : MetadataGrants) (grantId : Z)
    (inRound : bool) (round : GrantRound) : outcome bool :=
  if inRound then Returns true
  else match grantRoundMetadata !! metaPtr round with
       | None => Throws TypeError
       | Some None => Returns false
       | Some (Some grants) => Returns (bool_decide (grantId ∈ grants))
       end.

(** [array.reduce(callback, initial)] with a callback that may throw. *)
Fixpoint reduceOutcome {A B : Type} (callback : B -> A -> outcome B) (initial : B)
    (array : list A) : outcome B :=
  match array with
  | [] => Returns initial
  | a :: array' =>
      next ← callback initial a;
      reduceOutcome callback next array'
  end.

(** [cartInRound]: is any item of the cart in a round.
    [grantRounds.value || []] is [default [] grantRounds]. *)
Definition cartInRound (grantRoundMetadata : MetadataGrants)
    (grantRounds : option (list GrantRound)) (cart : list (CartItem number))
  : outcome bool :=
  isInRounds ← arrayMap
    (fun item =>
       reduceOutcome (inRoundStep grantRoundMetadata (itemGrantId item)) false
                     (default [] grantRounds))
    cart;
  Returns (fold_left (fun inRound isInRound => inRound || isInRound) isInRounds false).

End InRound.

End CartRounds.

(** * Synchronising the list of rounds *)
Module RoundSync.

(** What [syncStorage] hands to its callback: the stored entry, of which
    [getAllGrantRounds] reads [blockNumber] and [data?.roundAddresses];
    each of them may be [undefined].  A round address is
    [e.args?.grantRound] of an event, which may be [undefined] too. *)
Record RoundAddresses : Type := mkRoundAddresses {
  roundAddresses : option (list (option string))
}.

Record LocalStorageData : Type := mkLocalStorageData {
  blockNumber : option Z;
  data : option RoundAddresses
}.

(** A [GrantRoundCreated] event: the block that holds it and
    [e.args?.grantRound]. *)
Record Event : Type := mkEvent {
  eventBlockNumber : Z;
  eventGrantRound : option string
}.

(** [grantRoundManager.value?.queryFilter(filter, fromBlock, toBlock)],
    awaited. *)
Definition QueryFilter : Type := Z -> Z -> outcome (list Event).

(** [value || fallback] on numbers: 0 and [undefined] are falsy. *)
Definition orNumber (value : option Z) (fallback : Z) : Z :=
  match value with
  | Some n => if n =? 0 then fallback else n
  | None => fallback
  end.

(** The callback that [getAllGrantRounds] passes to [syncStorage].
    [grantRoundManager] is [None] when the wallet store has no manager:
    the awaited value is then [undefined] and [.map] of it throws.
    [save] tells whether a [save] function was passed; the result is the
    list [roundAddresses] with whether [save()] was called. *)
Definition getAllGrantRounds (START_BLOCK : Z) (grantRoundManager : option QueryFilter)
    (currentBlock : Z) (forceRefresh : bool)
    (localStorageData : option LocalStorageData) (save : bool)
  : outcome (list (option string) * bool) :=
  let ls_blockNumber := orNumber (localStorageData ≫= blockNumber) START_BLOCK in
  let ls_roundAddresses : list (option string) :=
    default [] ((localStorageData ≫= data) ≫= roundAddresses) in
  let refreshed : outcome (list (option string)) :=
    if forceRefresh || negb (bool_decide (is_Some localStorageData))
       || (ls_blockNumber <? currentBlock)
    then
      let fromBlock := orNumber (Some (ls_blockNumber + 1)) START_BLOCK in
      match grantRoundManager with
      | None => Throws TypeError
      | Some queryFilter =>
          events ← (queryFilter fromBlock currentBlock : outcome (list Event));
          Returns (ls_roundAddresses ++ map eventGrantRound events)
      end
    else Returns ls_roundAddresses in
  ls_roundAddresses ← refreshed;
  Returns (ls_roundAddresses, bool_decide (ls_roundAddresses ≠ []) && save).

End RoundSync.

(** * Facts about outcomes *)

Lemma bind_returns {A B} (o : outcome A) (k : A -> outcome B) (b : B) :
  o ≫= k = Returns b -> exists a, o = Returns a /\ k a = Returns b.
Proof. destruct o as [a|e]; simpl; [eauto | discriminate]. Qed.

Lemma fmap_returns {A B} (f : A -> B) (o : outcome A) (b : B) :
  f <$> o = Returns b -> exists a, o = Returns a /\ b = f a.
Proof. destruct o as [a|e]; simpl; [intros [= <-]; eauto | discriminate]. Qed.

Lemma fmap_fmap_outcome {A B C} (f : A -> B) (g : B -> C) (o : outcome A) :
  g <$> (f <$> o) = (g ∘ f) <$> o.
Proof. destruct o; reflexivity. Qed.

Lemma fmap_ext_outcome {A B} (f g : A -> B) (o : outcome A) :
  (forall a, f a = g a) -> f <$> o = g <$> o.
Proof. intros E. destruct o; simpl; [f_equal; apply E | reflexivity]. Qed.

(** * The ratio allocator *)
Module Allocator.
Import Cart.

(** ** Sums per token *)

Definition share (tok : string) (d : Donation) : Z :=
  if decide (token d = tok) then ratio d else 0.

Lemma tokenSum_from (l : list Donation) (tok : string) (acc : Z) :
  fold_left (fun acc curr => acc + share tok curr) l acc
  = acc + fold_left (fun acc curr => acc + share tok curr) l 0.
Proof.
  revert acc. induction l as [|d l IH]; intros acc; simpl.
  - lia.
  - rewrite IH, (IH (0 + _)). lia.
Qed.

Lemma tokenSum_nil tok : tokenSum [] tok = 0.
Proof. reflexivity. Qed.

Lemma tokenSum_cons d l tok : tokenSum (d :: l) tok = share tok d + tokenSum l tok.
Proof.
  unfold tokenSum. simpl. fold (share tok d).
  change (fun acc curr => acc + (if decide (token curr = tok) then ratio curr else 0))
    with (fun acc curr => acc + share tok curr).
  rewrite tokenSum_from. lia.
Qed.

Lemma tokenSum_app l1 l2 tok :
  tokenSum (l1 ++ l2) tok = tokenSum l1 tok + tokenSum l2 tok.
Proof.
  induction l1 as [|d l1 IH]; simpl.
  - rewrite tokenSum_nil. lia.
  - rewrite !tokenSum_cons, IH. lia.
Qed.

Lemma share_withRatio tok d r :
  share tok (withRatio d r) = if decide (token d = tok) then r else 0.
Proof. reflexivity. Qed.

Lemma withRatio_same d : withRatio d (ratio d) = d.
Proof. destruct d; reflexivity. Qed.

(** ** The loop, position by position *)

(** What the callback leaves at the position of [d] when the tokens in
    [seen] have been met before: the first donation of a token takes the
    whole shortfall of its group, a later one is written back as it is. *)
Definition settle (input : list Donation) (seen : list string) (d : Donation) : Donation :=
  if decide (token d ∈ seen) then d
  else withRatio d (ratio d + (WAD - tokenSum input (token d))).

(** The loop in closed form, over the donations still to visit. *)
Fixpoint settleAll (input : list Donation) (seen : list string) (todo : list Donation)
  : outcome (list Donation) :=
  match todo with
  | [] => Returns []
  | d :: todo' =>
      if decide (token d ∈ seen)
      then (d ::.) <$> settleAll input (seen ++ [token d]) todo'
      else if tokenSum input (token d) >? WAD then Throws InvariantViolation
      else (settle input seen d ::.) <$> settleAll input (seen ++ [token d]) todo'
  end.

(** The state of the array between two runs of the callback: the tokens
    already met sum to [WAD], the other groups are as in the input. *)
Definition visited (input done todo : list Donation) : Prop :=
  (forall tok, tok ∈ map token done -> tokenSum (done ++ todo) tok = WAD) /\
  (forall tok, tok ∉ map token done -> tokenSum (done ++ todo) tok = tokenSum input tok).

Lemma visited_start input : visited input [] input.
Proof. split; intros tok H; [by apply elem_of_nil in H | reflexivity]. Qed.

Lemma token_settle input seen d : token (settle input seen d) = token d.
Proof. unfold settle. case_decide; reflexivity. Qed.

Lemma fixAt_visited input done d todo :
  visited input done (d :: todo) ->
  fixAt (done ++ d :: todo) (length done) =
    if decide (token d ∈ map token done) then Returns (done ++ d :: todo)
    else if tokenSum input (token d) >? WAD then Throws InvariantViolation
    else Returns (done ++ settle input (map token done) d :: todo).
Proof.
  intros [Hseen Hnew]. unfold fixAt.
  rewrite list_lookup_middle by reflexivity. cbv zeta.
  case_decide as Hin.
  - rewrite (Hseen _ Hin), Z.gtb_ltb, Z.ltb_irrefl.
    replace (ratio d + (WAD - WAD)) with (ratio d) by lia.
    rewrite withRatio_same.
    replace (length done) with (length done + 0)%nat by lia.
    rewrite insert_app_r. reflexivity.
  - rewrite (Hnew _ Hin). destruct (tokenSum input (token d) >? WAD); [reflexivity|].
    replace (length done) with (length done + 0)%nat at 1 by lia.
    rewrite insert_app_r. unfold settle. rewrite decide_False by assumption.
    reflexivity.
Qed.

Lemma visited_step input done d todo :
  visited input done (d :: todo) ->
  visited input (done ++ [settle input (map token done) d]) todo.
Proof.
  intros [Hseen Hnew].
  assert (Hsum : forall tok,
    tokenSum ((done ++ [settle input (map token done) d]) ++ todo) tok
    = tokenSum (done ++ d :: todo) tok
      + (share tok (settle input (map token done) d) - share tok d)).
  { intros tok. rewrite !tokenSum_app, !tokenSum_cons, tokenSum_nil. lia. }
  split; intros tok Htok; rewrite Hsum; rewrite map_app in Htok; simpl in Htok;
    rewrite token_settle in Htok.
  - unfold settle. case_decide as Hin.
    + rewrite Z.sub_diag, Z.add_0_r. apply Hseen.
      apply elem_of_app in Htok as [Htok|Htok]; [assumption|].
      apply list_elem_of_singleton in Htok. by subst.
    + rewrite share_withRatio. unfold share.
      apply elem_of_app in Htok as [Htok|Htok].
      * rewrite !decide_False by (intros E; rewrite E in Hin; contradiction).
        rewrite (Hseen _ Htok). lia.
      * apply list_elem_of_singleton in Htok. subst tok.
        rewrite !decide_True by reflexivity. rewrite (Hnew _ Hin). lia.
  - assert (Hn1 : tok ∉ map token done) by (intros H; apply Htok, elem_of_app; by left).
    assert (Hn2 : token d <> tok).
    { intros E. apply Htok, elem_of_app. right. apply list_elem_of_singleton. by symmetry. }
    unfold settle. case_decide.
    + rewrite Z.sub_diag, Z.add_0_r. by apply Hnew.
    + rewrite share_withRatio. unfold share. rewrite !decide_False by assumption.
      rewrite Z.sub_diag, Z.add_0_r. by apply Hnew.
Qed.

Lemma forEachFrom_settleAll input todo : forall done,
  visited input done todo ->
  forEachFrom (length todo) (length done) (done ++ todo)
  = (done ++.) <$> settleAll input (map token done) todo.
Proof.
  induction todo as [|d todo IH]; intros done Hv.
  - reflexivity.
  - pose proof (visited_step _ _ _ _ Hv) as Hv'.
    specialize (IH _ Hv').
    rewrite length_app, Nat.add_1_r, <- app_assoc, map_app in IH.
    simpl in IH. rewrite token_settle in IH.
    change (forEachFrom (length (d :: todo)) (length done) (done ++ d :: todo))
      with (fixAt (done ++ d :: todo) (length done)
              ≫= forEachFrom (length todo) (S (length done))).
    rewrite (fixAt_visited _ _ _ _ Hv). simpl settleAll.
    unfold settle in IH |- *. case_decide as Hin.
    + change (Returns (done ++ d :: todo) ≫= forEachFrom (length todo) (S (length done)))
        with (forEachFrom (length todo) (S (length done)) (done ++ d :: todo)).
      rewrite IH, fmap_fmap_outcome. apply fmap_ext_outcome.
      intros l; simpl. by rewrite <- app_assoc.
    + destruct (tokenSum input (token d) >? WAD); [reflexivity|].
      match goal with |- Returns ?st ≫= ?k = _ => change (Returns st ≫= k) with (k st) end.
      rewrite IH, fmap_fmap_outcome. apply fmap_ext_outcome.
      intros l; simpl. by rewrite <- app_assoc.
Qed.

(** The function is its closed form. *)
Lemma fixDonationRoundingErrors_settleAll donations :
  fixDonationRoundingErrors donations = settleAll donations [] donations.
Proof.
  unfold fixDonationRoundingErrors.
  pose proof (forEachFrom_settleAll donations donations [] (visited_start _)) as H.
  simpl in H. rewrite H.
  destruct (settleAll donations [] donations); reflexivity.
Qed.

(** ** Properties of the closed form *)

Lemma settleAll_returns input todo : forall seen,
  (forall d, d ∈ todo -> tokenSum input (token d) <= WAD) ->
  exists out, settleAll input seen todo = Returns out.
Proof.
  induction todo as [|d todo IH]; intros seen Hle; simpl.
  - eauto.
  - destruct (IH (seen ++ [token d])) as [out Hout].
    { intros d' Hd'. apply Hle. by right. }
    rewrite Hout. case_decide; [eauto|].
    assert (tokenSum input (token d) <= WAD) by (apply Hle; left).
    destruct (Z.gtb_spec (tokenSum input (token d)) WAD); [lia | eauto].
Qed.

Lemma settleAll_throws input todo : forall seen,
  (forall tok, tok ∈ seen -> tokenSum input tok <= WAD) ->
  (exists d, d ∈ todo /\ tokenSum input (token d) > WAD) ->
  settleAll input seen todo = Throws InvariantViolation.
Proof.
  induction todo as [|d todo IH]; intros seen Hseen (bad & Hbad & Hgt); simpl.
  - by apply elem_of_nil in Hbad.
  - destruct (Z.gtb_spec (tokenSum input (token d)) WAD) as [Hd|Hd].
    + rewrite decide_False; [reflexivity|].
      intros Hin. apply Hseen in Hin. lia.
    + assert (Hrest : settleAll input (seen ++ [token d]) todo = Throws InvariantViolation).
      { apply IH.
        - intros tok [Htok|Htok]%elem_of_app; [by apply Hseen|].
          apply list_elem_of_singleton in Htok. by subst.
        - exists bad. split; [|assumption].
          apply elem_of_cons in Hbad as [->|Hbad]; [lia | assumption]. }
      rewrite Hrest. by case_decide.
Qed.

Lemma settleAll_throws_inv input todo e : forall seen,
  settleAll input seen todo = Throws e ->
  e = InvariantViolation /\ exists d, d ∈ todo /\ tokenSum input (token d) > WAD.
Proof.
  induction todo as [|d todo IH]; intros seen; simpl.
  - discriminate.
  - assert (Hrest : forall f : list Donation -> list Donation,
      f <$> settleAll input (seen ++ [token d]) todo = Throws e ->
      e = InvariantViolation /\ exists d0, d0 ∈ d :: todo /\ tokenSum input (token d0) > WAD).
    { intros f Hf. destruct (settleAll input (seen ++ [token d]) todo) eqn:E;
        [discriminate|]. injection Hf as ->.
      destruct (IH _ E) as (-> & bad & Hbad & Hgt).
      split; [reflexivity|]. exists bad. split; [by right | assumption]. }
    case_decide; [apply Hrest|].
    destruct (Z.gtb_spec (tokenSum input (token d)) WAD) as [Hd|Hd]; [|apply Hrest].
    intros [= <-]. split; [reflexivity|]. exists d. split; [by left | lia].
Qed.

Lemma settleAll_lookup input todo : forall seen out,
  settleAll input seen todo = Returns out ->
  length out = length todo /\
  forall index d, todo !! index = Some d ->
    out !! index = Some (settle input (seen ++ map token (take index todo)) d).
Proof.
  induction todo as [|d todo IH]; intros seen out; simpl.
  - intros [= <-]. split; [reflexivity|]. intros index d H. by destruct index.
  - intros Hout.
    assert (exists rest, settleAll input (seen ++ [token d]) todo = Returns rest
                         /\ out = settle input seen d :: rest) as (rest & Hrest & ->).
    { unfold settle. case_decide.
      - apply fmap_returns in Hout as (rest & ? & ->). eauto.
      - destruct (tokenSum input (token d) >? WAD); [discriminate|].
        apply fmap_returns in Hout as (rest & ? & ->).
        exists rest. unfold settle. by rewrite decide_False. }
    destruct (IH _ _ Hrest) as [Hlen Hat]. split; [simpl; by rewrite Hlen|].
    intros [|index] d' Hd'; simpl in *.
    + injection Hd' as <-. by rewrite app_nil_r.
    + rewrite (Hat _ _ Hd'), <- app_assoc. reflexivity.
Qed.

Lemma settleAll_settled input todo : forall seen,
  (forall d, d ∈ todo -> tokenSum input (token d) = WAD) ->
  settleAll input seen todo = Returns todo.
Proof.
  induction todo as [|d todo IH]; intros seen Heq; simpl.
  - reflexivity.
  - rewrite IH by (intros d' Hd'; apply Heq; by right).
    assert (Hd : tokenSum input (token d) = WAD) by (apply Heq; left).
    case_decide; [reflexivity|].
    rewrite Hd, Z.gtb_ltb, Z.ltb_irrefl. simpl. unfold settle.
    rewrite decide_False by assumption.
    rewrite Hd, Z.sub_diag, Z.add_0_r, withRatio_same. reflexivity.
Qed.

(** ** Properties of the loop *)

Lemma forEachFrom_sums input todo : forall done out,
  visited input done todo ->
  forEachFrom (length todo) (length done) (done ++ todo) = Returns out ->
  map token out = map token (done ++ todo) /\
  forall tok, tok ∈ map token out -> tokenSum out tok = WAD.
Proof.
  induction todo as [|d todo IH]; intros done out Hv.
  - simpl. intros [= <-]. split; [reflexivity|].
    rewrite app_nil_r. destruct Hv as [Hseen _]. rewrite app_nil_r in Hseen.
    exact Hseen.
  - change (forEachFrom (length (d :: todo)) (length done) (done ++ d :: todo))
      with (fixAt (done ++ d :: todo) (length done)
              ≫= forEachFrom (length todo) (S (length done))).
    intros (st & Hst & Hrun)%bind_returns.
    assert (st = (done ++ [settle input (map token done) d]) ++ todo) as ->.
    { rewrite (fixAt_visited _ _ _ _ Hv) in Hst. rewrite <- app_assoc. simpl.
      unfold settle in *.
      destruct (decide (token d ∈ map token done)); [congruence|].
      destruct (tokenSum input (token d) >? WAD); congruence. }
    replace (S (length done))
      with (length (done ++ [settle input (map token done) d])) in Hrun
      by (rewrite length_app; simpl; lia).
    destruct (IH _ _ (visited_step _ _ _ _ Hv) Hrun) as [Htok Hsum].
    split; [|assumption].
    rewrite Htok, !map_app. simpl. by rewrite token_settle, <- app_assoc.
Qed.

Lemma ratiosWithinWAD_spec donations :
  ratiosWithinWAD donations = true <->
  forall d, d ∈ donations -> tokenSum donations (token d) <= WAD.
Proof.
  unfold ratiosWithinWAD. rewrite forallb_forall. split; intros H d Hd.
  - apply Z.leb_le, H, list_elem_of_In, Hd.
  - apply Z.leb_le, H, list_elem_of_In, Hd.
Qed.

Lemma ratiosWithinWAD_false donations :
  ratiosWithinWAD donations = false <->
  exists d, d ∈ donations /\ tokenSum donations (token d) > WAD.
Proof.
  split.
  - intros Hf. destruct (decide (Exists (fun d => tokenSum donations (token d) > WAD) donations))
      as [Hex|Hnex].
    + apply Exists_exists in Hex. exact Hex.
    + exfalso. assert (ratiosWithinWAD donations = true); [|congruence].
      apply ratiosWithinWAD_spec. intros d Hd.
      destruct (Z_le_gt_dec (tokenSum donations (token d)) WAD); [assumption|].
      exfalso. apply Hnex, Exists_exists. eauto.
  - intros (d & Hd & Hgt). destruct (ratiosWithinWAD donations) eqn:E; [|reflexivity].
    pose proof (proj1 (ratiosWithinWAD_spec _) E d Hd). lia.
Qed.

(** ** The example of the source's comment: three items of 5 DAI each,
       and one item in another token *)

Definition DAI : string := "0x6B175474E89094C44Da98b954EedeAC495271d0F".
Definition WETH : string := "0xC02aaA39b223FE8D0A0e5C4F27eAD9083C756Cc2".

Definition threeDaiOneWeth : list Donation :=
  [ mkDonation 1 DAI 333333333333333333 ["0xRound"];
    mkDonation 2 DAI 333333333333333333 ["0xRound"];
    mkDonation 7 WETH 1000000000000000000 ["0xRound"];
    mkDonation 3 DAI 333333333333333333 ["0xRound"] ].

Example threeDaiOneWeth_fixed :
  fixDonationRoundingErrors threeDaiOneWeth = Returns
    [ mkDonation 1 DAI 333333333333333334 ["0xRound"];
      mkDonation 2 DAI 333333333333333333 ["0xRound"];
      mkDonation 7 WETH 1000000000000000000 ["0xRound"];
      mkDonation 3 DAI 333333333333333333 ["0xRound"] ].
Proof. vm_compute. reflexivity. Qed.

Example overfull_throws :
  fixDonationRoundingErrors
    [ mkDonation 1 DAI 600000000000000000 []; mkDonation 2 DAI 400000000000000001 [] ]
  = Throws (Error "Ratios sum to greater than 100%").
Proof. vm_compute. reflexivity. Qed.

(** ** The allocator's guarantees *)

(** C1.  When, for the token of every donation, the input ratios of that
    token sum to at most [WAD], [fixDonationRoundingErrors] returns an
    array with the same tokens position by position in which, for the
    token of every donation, the ratios of that token sum to exactly
    [WAD] = 1e18. *)
Theorem fixDonationRoundingErrors_sums_to_WAD (donations : list Donation) :
  ratiosWithinWAD donations = true ->
  exists fixed,
    fixDonationRoundingErrors donations = Returns fixed /\
    map token fixed = map token donations /\
    forall d, d ∈ fixed -> tokenSum fixed (token d) = WAD.
Proof.
  intros Hpre.
  destruct (settleAll_returns donations donations [] (proj1 (ratiosWithinWAD_spec _) Hpre))
    as [fixed Hfixed].
  rewrite <- fixDonationRoundingErrors_settleAll in Hfixed.
  exists fixed. split; [assumption|].
  destruct (forEachFrom_sums donations donations [] fixed (visited_start _) Hfixed)
    as [Htok Hsum].
  split; [exact Htok|].
  intros d Hd. apply Hsum, list_elem_of_fmap. eauto.
Qed.

Lemma fixDonationRoundingErrors_sums_to_WAD_witness :
  ratiosWithinWAD threeDaiOneWeth = true /\
  exists fixed,
    fixDonationRoundingErrors threeDaiOneWeth = Returns fixed /\
    map token fixed = map token threeDaiOneWeth /\
    forall d, d ∈ fixed -> tokenSum fixed (token d) = WAD.
Proof.
  split; [reflexivity|].
  apply (fixDonationRoundingErrors_sums_to_WAD threeDaiOneWeth). reflexivity.
Defined.

(** C2.  Under the same precondition, the donation at each position is
    returned with the whole shortfall of its token group
    ([WAD] minus the group's input sum) added to its ratio when it is the
    first donation of that token in input order, and is returned as it
    was otherwise. *)
Theorem fixDonationRoundingErrors_first_takes_shortfall (donations : list Donation) :
  ratiosWithinWAD donations = true ->
  exists fixed,
    fixDonationRoundingErrors donations = Returns fixed /\
    length fixed = length donations /\
    forall index d, donations !! index = Some d ->
      fixed !! index = Some
        (if firstOfToken donations index (token d)
         then withRatio d (ratio d + (WAD - tokenSum donations (token d)))
         else d).
Proof.
  intros Hpre.
  destruct (settleAll_returns donations donations [] (proj1 (ratiosWithinWAD_spec _) Hpre))
    as [fixed Hfixed].
  exists fixed. rewrite fixDonationRoundingErrors_settleAll.
  split; [assumption|].
  destruct (settleAll_lookup _ _ _ _ Hfixed) as [Hlen Hat].
  split; [assumption|].
  intros index d Hd. rewrite (Hat _ _ Hd). simpl. unfold settle, firstOfToken.
  case_decide.
  - by rewrite bool_decide_eq_false_2 by tauto.
  - by rewrite bool_decide_eq_true_2.
Qed.

Lemma fixDonationRoundingErrors_first_takes_shortfall_witness :
  ratiosWithinWAD threeDaiOneWeth = true /\
  exists fixed,
    fixDonationRoundingErrors threeDaiOneWeth = Returns fixed /\
    length fixed = length threeDaiOneWeth /\
    forall index d, threeDaiOneWeth !! index = Some d ->
      fixed !! index = Some
        (if firstOfToken threeDaiOneWeth index (token d)
         then withRatio d (ratio d + (WAD - tokenSum threeDaiOneWeth (token d)))
         else d).
Proof.
  split; [reflexivity|].
  apply (fixDonationRoundingErrors_first_takes_shortfall threeDaiOneWeth). reflexivity.
Defined.

(** C3.  Idempotence: under the precondition, the function returns an
    array on which a second application returns that same array. *)
Theorem fixDonationRoundingErrors_idempotent (donations : list Donation) :
  ratiosWithinWAD donations = true ->
  exists fixed,
    fixDonationRoundingErrors donations = Returns fixed /\
    fixDonationRoundingErrors fixed = Returns fixed.
Proof.
  intros Hpre.
  destruct (settleAll_returns donations donations [] (proj1 (ratiosWithinWAD_spec _) Hpre))
    as [fixed Hfixed].
  rewrite <- fixDonationRoundingErrors_settleAll in Hfixed.
  exists fixed. split; [assumption|].
  destruct (forEachFrom_sums donations donations [] fixed (visited_start _) Hfixed)
    as [_ Hsum].
  rewrite fixDonationRoundingErrors_settleAll. apply settleAll_settled.
  intros d Hd. apply Hsum, list_elem_of_fmap. eauto.
Qed.

Lemma fixDonationRoundingErrors_idempotent_witness :
  ratiosWithinWAD threeDaiOneWeth = true /\
  exists fixed,
    fixDonationRoundingErrors threeDaiOneWeth = Returns fixed /\
    fixDonationRoundingErrors fixed = Returns fixed.
Proof.
  split; [reflexivity|].
  apply (fixDonationRoundingErrors_idempotent threeDaiOneWeth). reflexivity.
Defined.

(** C4.  The function throws the error 'Ratios sum to greater than 100%'
    exactly when the input ratios of the token of some donation sum to
    more than [WAD]; it throws nothing else, and it returns whenever no
    token group exceeds [WAD]. *)
Theorem fixDonationRoundingErrors_throws_iff (donations : list Donation) :
  (fixDonationRoundingErrors donations = Throws InvariantViolation <->
   exists d, d ∈ donations /\ tokenSum donations (token d) > WAD) /\
  (forall e, fixDonationRoundingErrors donations = Throws e -> e = InvariantViolation) /\
  ((forall d, d ∈ donations -> tokenSum donations (token d) <= WAD) ->
   exists fixed, fixDonationRoundingErrors donations = Returns fixed).
Proof.
  rewrite fixDonationRoundingErrors_settleAll. repeat split.
  - intros H. by apply settleAll_throws_inv in H as [_ H].
  - intros H. apply settleAll_throws; [|assumption].
    intros tok Htok. by apply elem_of_nil in Htok.
  - intros e H. by apply settleAll_throws_inv in H as [H _].
  - intros H. by apply settleAll_returns.
Qed.

End Allocator.

(** * The token value converter *)
Module Converter.
Import Cart.

(** ** The two directions *)

Lemma getConvertedAmount_to_reference {N} `{JSNumber N}
    (quotes : gmap string N) (amount : N) (tokenAddress : string) :
  num_eqb (num_one : N) num_one = true ->
  getConvertedAmount quotes amount tokenAddress (Some num_one)
  = Returns (num_mul amount (default num_zero (quotes !! tokenAddress))).
Proof. intros E. unfold getConvertedAmount. simpl. by rewrite E. Qed.

Lemma getConvertedAmount_from_reference {N} `{JSNumber N}
    (quotes : gmap string N) (amount : N) (tokenAddress : string) (direction : N) :
  num_eqb direction num_one = false ->
  getConvertedAmount quotes amount tokenAddress (Some direction)
  = Returns (num_mul amount (num_div num_one (default num_zero (quotes !! tokenAddress)))).
Proof. intros E. unfold getConvertedAmount. simpl. by rewrite E. Qed.

(** An omitted direction is direction 1. *)
Lemma getConvertedAmount_default_direction {N} `{JSNumber N}
    (quotes : gmap string N) (amount : N) (tokenAddress : string) :
  getConvertedAmount quotes amount tokenAddress None
  = getConvertedAmount quotes amount tokenAddress (Some num_one).
Proof. reflexivity. Qed.

(** ** Sample quote tables *)

Definition GTC : string := "0xDe30da39c46104798bB5aA3fe8B9e0e1F348163F".

Definition DAI_address : string := "0x6B175474E89094C44Da98b954EedeAC495271d0F".

Definition exactQuotes : gmap string Qc := {[ GTC := Q2Qc (7 # 2) ]}.

Definition floatQuotes : gmap string float := {[ GTC := 49%float ]}.

(** Over exact arithmetic, for a token whose stored quote is not zero,
    direction 1 multiplies the amount by the quote, any other direction
    divides it by the quote, and converting an amount to the reference
    unit and back returns the amount itself. *)
Lemma getConvertedAmount_exact_round_trip
    (quotes : gmap string Qc) (x : Qc) (tokenAddress : string) (rate direction : Qc) :
  quotes !! tokenAddress = Some rate ->
  rate <> 0%Qc ->
  direction <> 1%Qc ->
  getConvertedAmount quotes x tokenAddress (Some 1%Qc) = Returns (x * rate)%Qc /\
  getConvertedAmount quotes x tokenAddress (Some direction) = Returns (x / rate)%Qc /\
  (getConvertedAmount quotes x tokenAddress (Some 1%Qc)
     ≫= fun y => getConvertedAmount quotes y tokenAddress (Some direction))
  = Returns x.
Proof.
  intros Hrate Hnz Hdir.
  assert (E1 : getConvertedAmount quotes x tokenAddress (Some 1%Qc) = Returns (x * rate)%Qc).
  { unfold getConvertedAmount. simpl. by rewrite Hrate. }
  assert (E2 : forall y, getConvertedAmount quotes y tokenAddress (Some direction)
                         = Returns (y / rate)%Qc).
  { intros y.
    unfold getConvertedAmount. simpl.
    rewrite Hrate, bool_decide_eq_false_2 by assumption.
    simpl. f_equal. field. assumption. }
  split; [exact E1|]. split; [apply E2|].
  rewrite E1. change (getConvertedAmount quotes (x * rate)%Qc tokenAddress (Some direction)
                      = Returns x).
  rewrite E2. f_equal. field. assumption.
Qed.



(** Quotes that are not zero and near the ends of the binary64 range. *)
Definition smallestQuote : gmap string float := {[ GTC := 0x1p-1074%float ]}.

Definition smallQuote : gmap string float := {[ GTC := 0x1p-600%float ]}.


(** In binary64 the same round trip is only approximate: with a quote of
    49, one token comes back as the double just below 1. *)
Example binary64_round_trip_is_rounded :
  (getConvertedAmount floatQuotes 1%float GTC (Some 1%float)
     ≫= fun y => getConvertedAmount floatQuotes y GTC (Some (-1)%float))
  = Returns 0x1.fffffffffffffp-1%float.
Proof. vm_compute. reflexivity. Qed.

(** ** A token without a quote *)

(** C6, as the code has it.  For every amount and every direction, a
    conversion for a token that has no entry in the quotes table does
    not throw: the rate falls back to 0, and the call returns
    [amount * 0] for direction 1 and [amount * (1 / 0)] for any other
    direction, which is what it returns for a token whose stored quote
    is 0. *)
Theorem getConvertedAmount_missing_quote {N : Type} `{JSNumber N}
    (quotes : gmap string N) (amount : N) (tokenAddress : string)
    (direction : option N) :
  quotes !! tokenAddress = None ->
  getConvertedAmount quotes amount tokenAddress direction
  = Returns (num_mul amount
               (if num_eqb (default num_one direction) num_one then num_zero
                else num_div num_one num_zero)) /\
  getConvertedAmount quotes amount tokenAddress direction
  = getConvertedAmount (<[tokenAddress := num_zero]> quotes) amount tokenAddress direction.
Proof.
  intros Hnone. unfold getConvertedAmount.
  rewrite Hnone, lookup_insert_eq. split; reflexivity.
Qed.

Lemma getConvertedAmount_missing_quote_witness :
  floatQuotes !! DAI_address = None /\
  getConvertedAmount floatQuotes 5%float DAI_address (Some (-1)%float)
  = Returns (num_mul 5%float
               (if num_eqb (default num_one (Some (-1)%float)) num_one then num_zero
                else num_div num_one num_zero)) /\
  getConvertedAmount floatQuotes 5%float DAI_address (Some (-1)%float)
  = getConvertedAmount (<[DAI_address := num_zero]> floatQuotes) 5%float DAI_address
      (Some (-1)%float).
Proof.
  split; [reflexivity|].
  apply (getConvertedAmount_missing_quote floatQuotes 5%float DAI_address (Some (-1)%float)).
  reflexivity.
Defined.

(** C6, as stated, fails.  With no quote for the token, the binary64
    implementation returns numbers, 0 towards the reference unit and
    Infinity back from it, where the claim expects a MissingQuote error
    to reach the caller. *)
Lemma getConvertedAmount_missing_quote_returns_number :
  floatQuotes !! DAI_address = None /\
  getConvertedAmount floatQuotes 5%float DAI_address (Some 1%float) = Returns 0%float /\
  getConvertedAmount floatQuotes 5%float DAI_address None = Returns 0%float /\
  getConvertedAmount floatQuotes 5%float DAI_address (Some (-1)%float) = Returns infinity.
Proof. repeat split; vm_compute; reflexivity. Qed.

End Converter.

(** * Round status *)
Module RoundStatus.
Import GrantRounds.

Lemma Qgeb_spec (a b : Q) : reflect (b <= a)%Q (Qgeb a b).
Proof.
  unfold Qgeb. destruct (Qle_bool b a) eqn:E; constructor.
  - by apply Qle_bool_iff.
  - intros Hle. apply Qle_bool_iff in Hle. congruence.
Qed.

Lemma Qltb_spec (a b : Q) : reflect (a < b)%Q (Qltb a b).
Proof.
  unfold Qltb. destruct (Qle_bool b a) eqn:E; constructor.
  - apply Qle_not_lt. by apply Qle_bool_iff.
  - apply Qnot_le_lt. intros Hle. apply Qle_bool_iff in Hle. congruence.
Qed.

(** The three cases of the status expression. *)
Lemma roundStatus_cases (now : Q) (startTime endTime : Z) :
  ((inject_Z startTime <= now)%Q /\ (now < inject_Z endTime)%Q
     /\ roundStatus now startTime endTime = Active) \/
  ((now < inject_Z startTime)%Q /\ roundStatus now startTime endTime = Upcoming) \/
  ((inject_Z startTime <= now)%Q /\ (inject_Z endTime <= now)%Q
     /\ roundStatus now startTime endTime = Completed).
Proof.
  unfold roundStatus.
  destruct (Qgeb_spec now (inject_Z startTime)) as [Hs|Hs];
    destruct (Qltb_spec now (inject_Z endTime)) as [He|He];
    destruct (Qltb_spec now (inject_Z startTime)) as [Hu|Hu]; simpl.
  all: try (left; split; [assumption | split; [assumption | reflexivity]]).
  all: try (right; left; split; [assumption | reflexivity]).
  all: try (right; right;
            split; [assumption | split; [by apply Qnot_lt_le | reflexivity]]).
  all: exfalso; apply Hu; by apply Qnot_le_lt.
Qed.

(** C7.  The status is a function of [now] and the interval alone:
    it is Active exactly when [startTime <= now < endTime], Upcoming
    exactly when [now < startTime], and Completed exactly in the
    remaining case, in which [now >= endTime]; for an interval with
    [startTime <= endTime], Completed is exactly [now >= endTime]. *)
Theorem roundStatus_spec (now : Q) (startTime endTime : Z) :
  (roundStatus now startTime endTime = Active <->
     (inject_Z startTime <= now)%Q /\ (now < inject_Z endTime)%Q) /\
  (roundStatus now startTime endTime = Upcoming <-> (now < inject_Z startTime)%Q) /\
  (roundStatus now startTime endTime = Completed <->
     ~ ((inject_Z startTime <= now)%Q /\ (now < inject_Z endTime)%Q) /\
     ~ (now < inject_Z startTime)%Q) /\
  (roundStatus now startTime endTime = Completed -> (inject_Z endTime <= now)%Q) /\
  ((startTime <= endTime)%Z ->
     (roundStatus now startTime endTime = Completed <-> (inject_Z endTime <= now)%Q)).
Proof.
  destruct (roundStatus_cases now startTime endTime)
    as [(Hs & He & E) | [(Hu & E) | (Hs & He & E)]]; rewrite E; clear E.
  all: repeat split; intros; try discriminate; try reflexivity; try assumption.
  all: repeat match goal with
       | H : _ /\ _ |- _ => destruct H
       | H : ~ (_ /\ _) |- _ => exfalso; apply H; split; assumption
       | H : ~ _ |- _ => exfalso; apply H; assumption
       | H1 : (?a < ?b)%Q, H2 : (?b <= ?a)%Q |- _ => exfalso; exact (Qlt_not_le _ _ H1 H2)
       | |- ~ _ => intro
       end.
  exfalso. apply (Qlt_not_le _ _ Hu).
  eapply Qle_trans; [|eassumption]. by rewrite <- Zle_Qle.
Qed.

(** The scenario of the specification, for a clock at a whole second. *)
Example status_scenario (now : Z) :
  roundStatus (inject_Z now) (now - 100) (now + 100) = Active /\
  roundStatus (inject_Z now) (now - 100) (now - 1) = Completed /\
  roundStatus (inject_Z now) (now + 1) (now + 100) = Upcoming.
Proof.
  assert (H1 : (inject_Z (now - 100) <= inject_Z now)%Q) by (rewrite <- Zle_Qle; lia).
  assert (H2 : (inject_Z now < inject_Z (now + 100))%Q) by (rewrite <- Zlt_Qlt; lia).
  assert (H3 : (inject_Z (now - 1) <= inject_Z now)%Q) by (rewrite <- Zle_Qle; lia).
  assert (H4 : (inject_Z now < inject_Z (now + 1))%Q) by (rewrite <- Zlt_Qlt; lia).
  pose proof (Qlt_not_le _ _ H4) as H5.
  pose proof (Qle_not_lt _ _ H3) as H6.
  repeat split.
  - destruct (roundStatus_cases (inject_Z now) (now - 100) (now + 100))
      as [(_ & _ & E) | [(Hu & _) | (_ & He & _)]]; [exact E | |].
    + exfalso. exact (Qlt_not_le _ _ Hu H1).
    + exfalso. exact (Qlt_not_le _ _ H2 He).
  - destruct (roundStatus_cases (inject_Z now) (now - 100) (now - 1))
      as [(_ & He & _) | [(Hu & _) | (_ & _ & E)]]; [| | exact E].
    + exfalso. exact (H6 He).
    + exfalso. exact (Qlt_not_le _ _ Hu H1).
  - destruct (roundStatus_cases (inject_Z now) (now + 1) (now + 100))
      as [(Hs & _ & _) | [(_ & E) | (Hs & _ & _)]]; [| exact E |].
    + exfalso. exact (H5 Hs).
    + exfalso. exact (H5 Hs).
Qed.

(** The status at 12:00:00.500 UTC on 2021-10-01 of a round open from
    that day's midnight for two weeks. *)
Example status_at_half_second :
  roundStatus (unixNow 1633089600500) 1633046400 1634256000 = Active.
Proof. reflexivity. Qed.

End RoundStatus.

(** * The round/grant aggregator *)
Module Aggregator.
Import GrantRounds.

(** ** [array.map] over outcomes *)

Lemma arrayMap_returns_inv {A B} (callback : A -> outcome B) (array : list A) :
  forall bs, arrayMap callback array = Returns bs ->
             Forall2 (fun a b => callback a = Returns b) array bs.
Proof.
  induction array as [|a array IH]; intros bs; simpl.
  - intros [= <-]. constructor.
  - intros (b & Hb & (bs' & Hbs' & [= <-])%bind_returns)%bind_returns.
    constructor; [assumption | by apply IH].
Qed.

Lemma arrayMap_returns {A B} (callback : A -> outcome B) (array : list A) :
  (forall a, a ∈ array -> exists b, callback a = Returns b) ->
  exists bs, arrayMap callback array = Returns bs.
Proof.
  induction array as [|a array IH]; intros Hall; simpl.
  - eauto.
  - destruct (Hall a) as [b ->]; [by left|].
    destruct IH as [bs ->]; [intros a' Ha'; apply Hall; by right|].
    simpl. eauto.
Qed.

Lemma arrayMap_throws {A B} (callback : A -> outcome B) (array : list A) (e : exn) :
  (forall a e', callback a = Throws e' -> e' = e) ->
  (exists a, a ∈ array /\ callback a = Throws e) ->
  arrayMap callback array = Throws e.
Proof.
  intros Honly. induction array as [|a array IH]; intros (bad & Hin & Hbad); simpl.
  - by apply elem_of_nil in Hin.
  - destruct (callback a) as [b|e'] eqn:Ea.
    + apply elem_of_cons in Hin as [->|Hin]; [congruence|].
      rewrite IH by eauto. reflexivity.
    + simpl. f_equal. by eapply Honly.
Qed.

Section Facts.
Context {number : Type} {externals : Externals number}.
Implicit Types (grantId : string) (round : GrantRound) (rounds : list GrantRound).
Implicit Types (roundsMetadata : gmap string GrantRoundMetadataResolution).
Implicit Types (grantRoundsCLRData : gmap string (GrantRoundCLR number)).
Implicit Types (allContributions grant_contributions : list (Contribution number)).

(** ** The callback *)

Lemma formatPrediction_throws predictions index field e :
  formatPrediction predictions index field = Throws e -> e = TypeError.
Proof.
  unfold formatPrediction. destruct predictions as [p|]; [|discriminate].
  destruct (GrantRounds.predictions p !! index); [discriminate | congruence].
Qed.

Lemma roundDetails_throws grantId roundsMetadata grantRoundsCLRData grant_contributions round e :
  roundDetails grantId roundsMetadata grantRoundsCLRData grant_contributions round = Throws e ->
  e = TypeError.
Proof.
  unfold roundDetails, getPredictionsForGrantInRound, metadataName.
  destruct (grantRoundsCLRData !! address round) as [roundData|]; simpl; [|congruence].
  destruct (roundsMetadata !! metaPtr round) as [metadata|]; simpl; [|congruence].
  repeat match goal with
  | |- context [formatPrediction ?p ?i ?f] =>
      let E := fresh "E" in
      destruct (formatPrediction p i f) eqn:E; simpl;
      [| apply formatPrediction_throws in E; congruence]
  end.
  discriminate.
Qed.

Lemma roundDetails_missing_entry grantId roundsMetadata grantRoundsCLRData grant_contributions round :
  grantRoundsCLRData !! address round = None ->
  roundDetails grantId roundsMetadata grantRoundsCLRData grant_contributions round
  = Throws TypeError.
Proof. intros Hnone. unfold roundDetails. by rewrite Hnone. Qed.

(** What a returned summary holds. *)
Lemma roundDetails_returns_inv grantId roundsMetadata grantRoundsCLRData grant_contributions round s :
  roundDetails grantId roundsMetadata grantRoundsCLRData grant_contributions round = Returns s ->
  exists roundData predictions,
    grantRoundsCLRData !! address round = Some roundData /\
    getPredictionsForGrantInRound grantId (Some roundData) = Returns predictions /\
    detailsGrantId s = grantId /\
    detailsAddress s = address round /\
    formatPrediction predictions 0 predictedGrantMatch = Returns (matching s) /\
    formatPrediction predictions 1 predictionDiff = Returns (prediction1 s) /\
    formatPrediction predictions 2 predictionDiff = Returns (prediction10 s) /\
    formatPrediction predictions 3 predictionDiff = Returns (prediction100 s).
Proof.
  unfold roundDetails.
  destruct (grantRoundsCLRData !! address round) as [roundData|]; [|discriminate].
  intros (predictions & Hp & Hrest)%bind_returns.
  apply bind_returns in Hrest as (nm & _ & Hrest).
  apply bind_returns in Hrest as (m & Hm & Hrest).
  apply bind_returns in Hrest as (p1 & Hp1 & Hrest).
  apply bind_returns in Hrest as (p10 & Hp10 & Hrest).
  apply bind_returns in Hrest as (p100 & Hp100 & [= <-]).
  exists roundData, predictions. simpl. by repeat split.
Qed.

Lemma roundDetails_summarisable grantId roundsMetadata grantRoundsCLRData grant_contributions round :
  summarisable grantId roundsMetadata grantRoundsCLRData round = true ->
  exists s, roundDetails grantId roundsMetadata grantRoundsCLRData grant_contributions round
            = Returns s.
Proof.
  unfold summarisable, roundDetails, metadataName.
  destruct (grantRoundsCLRData !! address round) as [roundData|]; [|discriminate].
  intros [Hmeta Hpred]%andb_true_iff.
  apply bool_decide_eq_true in Hmeta as [metadata ->].
  simpl in *.
  destruct (match roundPredictions roundData with
            | Some predictions => predictions !! numberKey grantId
            | None => None
            end) as [p|]; simpl; [|eauto].
  apply bool_decide_eq_true in Hpred.
  destruct (predictions p) as [|e0 [|e1 [|e2 [|e3 rest]]]]; simpl in Hpred; try lia.
  simpl. eauto.
Qed.

(** With the six prediction points in order, the sample at a point is
    the entry at the matching position. *)
Lemma atPoint_positions (p : GrantPrediction number) :
  map predictionPoint (predictions p) = predictionPoints ->
  predictions p !! 0%nat = atPoint 0 p /\
  predictions p !! 1%nat = atPoint 1 p /\
  predictions p !! 2%nat = atPoint 10 p /\
  predictions p !! 3%nat = atPoint 100 p /\
  predictions p !! 4%nat = atPoint 1000 p /\
  predictions p !! 5%nat = atPoint 10000 p /\
  length (predictions p) = 6%nat.
Proof.
  unfold atPoint, predictionPoints.
  destruct (predictions p) as [|e0 [|e1 [|e2 [|e3 [|e4 [|e5 [|e6 rest]]]]]]];
    try discriminate.
  intros [= E0 E1 E2 E3 E4 E5]. simpl.
  rewrite E0, E1, E2, E3, E4, E5. simpl. by repeat split.
Qed.

(** ** The whole call *)

Lemma getGrantsGrantRoundDetails_returns grantId rounds roundsMetadata grantRoundsCLRData
    allContributions :
  forallb (summarisable grantId roundsMetadata grantRoundsCLRData) rounds = true ->
  exists summaries,
    getGrantsGrantRoundDetails grantId rounds roundsMetadata grantRoundsCLRData
      allContributions = Returns summaries.
Proof.
  intros Hall. apply arrayMap_returns. intros round Hin.
  apply roundDetails_summarisable.
  rewrite forallb_forall in Hall. apply Hall. by apply list_elem_of_In.
Qed.

(** When every round of the input list can be summarised, the call
    returns exactly one summary for each round of the list, in input
    order and for the given grant: [rounds.map] has no filter, and the
    grant list of the round's metadata is never read. *)
Theorem getGrantsGrantRoundDetails_one_summary_per_round grantId rounds roundsMetadata
    grantRoundsCLRData allContributions :
  forallb (summarisable grantId roundsMetadata grantRoundsCLRData) rounds = true ->
  exists summaries,
    getGrantsGrantRoundDetails grantId rounds roundsMetadata grantRoundsCLRData
      allContributions = Returns summaries /\
    map detailsAddress summaries = map address rounds /\
    Forall (fun s => detailsGrantId s = grantId) summaries.
Proof.
  intros Hall.
  destruct (getGrantsGrantRoundDetails_returns _ _ _ _ allContributions Hall)
    as [summaries Hs].
  exists summaries. split; [assumption|].
  apply arrayMap_returns_inv in Hs. clear Hall.
  induction Hs as [|round s rounds summaries Hhead _ [IHa IHg]]; [by split|].
  apply roundDetails_returns_inv in Hhead as (_ & _ & _ & _ & Hg & Ha & _).
  split; [simpl; by rewrite Ha, IHa | by constructor].
Qed.

(** C9, as the code has it.  When every round of the input list can be
    summarised, the summary of a round whose CLR data holds a prediction
    for the grant, sampled at the points 0, 1, 10, 100, 1000, 10000,
    reports the predicted match at point 0 and the prediction deltas at
    the points 1, 10 and 100, each formatted to 2 decimal places. *)
Theorem getGrantsGrantRoundDetails_reports_three_deltas grantId rounds roundsMetadata
    grantRoundsCLRData allContributions index round roundData predictionsOfRound p :
  forallb (summarisable grantId roundsMetadata grantRoundsCLRData) rounds = true ->
  rounds !! index = Some round ->
  grantRoundsCLRData !! address round = Some roundData ->
  roundPredictions roundData = Some predictionsOfRound ->
  predictionsOfRound !! numberKey grantId = Some p ->
  map predictionPoint (predictions p) = predictionPoints ->
  exists summaries s at0 at1 at10 at100,
    getGrantsGrantRoundDetails grantId rounds roundsMetadata grantRoundsCLRData
      allContributions = Returns summaries /\
    summaries !! index = Some s /\
    atPoint 0 p = Some at0 /\ atPoint 1 p = Some at1 /\
    atPoint 10 p = Some at10 /\ atPoint 100 p = Some at100 /\
    matching s = Some (formatNumber (NumberIn (predictedGrantMatch at0)) 2) /\
    prediction1 s = Some (formatNumber (NumberIn (predictionDiff at1)) 2) /\
    prediction10 s = Some (formatNumber (NumberIn (predictionDiff at10)) 2) /\
    prediction100 s = Some (formatNumber (NumberIn (predictionDiff at100)) 2).
Proof.
  intros Hall Hround Hdata Hpreds Hp Hpoints.
  destruct (getGrantsGrantRoundDetails_returns _ _ _ _ allContributions Hall)
    as [summaries Hs].
  exists summaries.
  pose proof (arrayMap_returns_inv _ _ _ Hs) as Hall2.
  destruct (Forall2_lookup_l _ _ _ _ _ Hall2 Hround) as (s & Hsum & Hdetails).
  apply roundDetails_returns_inv in Hdetails
    as (roundData' & pred & Hdata' & Hpred & _ & _ & Hm & H1 & H10 & H100).
  rewrite Hdata in Hdata'. injection Hdata' as <-.
  unfold getPredictionsForGrantInRound in Hpred. rewrite Hpreds, Hp in Hpred.
  injection Hpred as <-.
  destruct (atPoint_positions p Hpoints) as (P0 & P1 & P2 & P3 & _ & _ & Hlen).
  unfold formatPrediction in Hm, H1, H10, H100.
  rewrite P0 in Hm. rewrite P1 in H1. rewrite P2 in H10. rewrite P3 in H100.
  destruct (atPoint 0 p) as [at0|]; [|discriminate].
  destruct (atPoint 1 p) as [at1|]; [|discriminate].
  destruct (atPoint 10 p) as [at10|]; [|discriminate].
  destruct (atPoint 100 p) as [at100|]; [|discriminate].
  exists s, at0, at1, at10, at100.
  injection Hm as <-. injection H1 as <-. injection H10 as <-. injection H100 as <-.
  by repeat split.
Qed.

(** C10.  A round of the input list whose address has no entry in
    [grantRoundsCLRData] makes the whole call throw a [TypeError]: no
    summary is returned, for that round or for any other. *)
Theorem getGrantsGrantRoundDetails_missing_entry_throws grantId rounds roundsMetadata
    grantRoundsCLRData allContributions round :
  round ∈ rounds ->
  grantRoundsCLRData !! address round = None ->
  getGrantsGrantRoundDetails grantId rounds roundsMetadata grantRoundsCLRData
    allContributions = Throws TypeError.
Proof.
  intros Hin Hnone. apply arrayMap_throws.
  - intros a e. apply roundDetails_throws.
  - exists round. split; [assumption | by apply roundDetails_missing_entry].
Qed.

(** The call returns exactly when every round can be summarised. *)
Lemma roundDetails_returns_summarisable grantId roundsMetadata grantRoundsCLRData
    grant_contributions round s :
  roundDetails grantId roundsMetadata grantRoundsCLRData grant_contributions round = Returns s ->
  summarisable grantId roundsMetadata grantRoundsCLRData round = true.
Proof.
  unfold roundDetails, summarisable, metadataName.
  destruct (grantRoundsCLRData !! address round) as [roundData|]; [|discriminate].
  intros (pred & Hpred & Hrest)%bind_returns. rewrite Hpred.
  destruct (roundsMetadata !! metaPtr round) as [metadata|]; [|discriminate].
  apply bind_returns in Hrest as (nm & _ & Hrest).
  apply bind_returns in Hrest as (m & _ & Hrest).
  apply bind_returns in Hrest as (p1 & _ & Hrest).
  apply bind_returns in Hrest as (p10 & _ & Hrest).
  apply bind_returns in Hrest as (p100 & Hp100 & _).
  apply andb_true_iff. split; [by apply bool_decide_eq_true_2|].
  destruct pred as [p|]; [|reflexivity].
  apply bool_decide_eq_true_2. unfold formatPrediction in Hp100.
  destruct (predictions p !! 3%nat) eqn:E; [|discriminate].
  apply lookup_lt_Some in E. lia.
Qed.

Lemma getGrantsGrantRoundDetails_returns_iff grantId rounds roundsMetadata
    grantRoundsCLRData allContributions :
  (exists summaries,
     getGrantsGrantRoundDetails grantId rounds roundsMetadata grantRoundsCLRData
       allContributions = Returns summaries) <->
  forallb (summarisable grantId roundsMetadata grantRoundsCLRData) rounds = true.
Proof.
  split; [|apply getGrantsGrantRoundDetails_returns].
  intros [summaries Hs]. apply arrayMap_returns_inv in Hs.
  apply forallb_forall. intros round Hin.
  apply list_elem_of_In, list_elem_of_lookup in Hin as [index Hin].
  destruct (Forall2_lookup_l _ _ _ _ _ Hs Hin) as (s & _ & Hround).
  by eapply roundDetails_returns_summarisable.
Qed.

End Facts.

(** ** Sample data *)

(** A whole number with [decimals] zeros after the point. *)
Definition fixedPoint (digits : string) (decimals : nat) : string :=
  digits +:+ "." +:+ String.concat "" (replicate decimals "0").

(** Modelled from the spec: the imports of the aggregator, for amounts
    that are whole numbers.  [formatNumber] formats to the requested
    number of decimal places; the two filters keep the contributions
    that target the grant and those that are counted in the round. *)
Definition wholeNumbers : Externals Z := {|
  zero := 0;
  add := Z.add;
  numberToString := pretty;
  numberKey := id;
  formatNumber := fun value decimals =>
    match value with
    | NumberIn n => fixedPoint (pretty n) decimals
    | StringIn digits => fixedPoint digits decimals
    end;
  filterContributionsByGrantId := fun grantId contributions =>
    filter (fun c => GrantRounds.grantId c = grantId) contributions;
  filterContributionsByGrantRound := fun round contributions =>
    filter (fun c => address round ∈ inRounds c) contributions
|}.

Definition dai : TokenInfo :=
  mkTokenInfo "0x6B175474E89094C44Da98b954EedeAC495271d0F" "DAI" 18.

Definition roundA : GrantRound :=
  mkGrantRound "0xRoundA" "ipfs://roundA" 1633046400 1634256000 Active dai dai.

Definition roundB : GrantRound :=
  mkGrantRound "0xRoundB" "ipfs://roundB" 1635724800 1636934400 Upcoming dai dai.

(** Grants 1 and 3 are in round A, grant 2 is in round B. *)
Definition sampleMetadata : gmap string GrantRoundMetadataResolution :=
  {[ "ipfs://roundA" := mkMetadata (Some "Round A") (Some ["1"; "3"]);
     "ipfs://roundB" := mkMetadata (Some "Round B") (Some ["2"]) ]}.

Definition sampleContributions : list (Contribution Z) :=
  [ mkContribution "1" "0xAlice" 25 ["0xRoundA"] "0x01";
    mkContribution "3" "0xBob" 10 ["0xRoundA"] "0x02";
    mkContribution "1" "0xCarol" 17 ["0xRoundA"] "0x03" ].

Definition predictionOfGrant1 : GrantPrediction Z :=
  mkGrantPrediction "1"
    [ mkPrediction 0 50 0; mkPrediction 1 51 1; mkPrediction 10 58 8;
      mkPrediction 100 90 40; mkPrediction 1000 250 200;
      mkPrediction 10000 600 550 ].

(** Only round A has CLR data. *)
Definition sampleCLRData : gmap string (GrantRoundCLR Z) :=
  {[ "0xRoundA" :=
       mkGrantRoundCLR "0xRoundA" 1000 18 sampleContributions
         (Some {[ "1" := predictionOfGrant1 ]}) ]}.

(** ** The claims on the sample data *)

(** C8.  The function is documented as returning "the details for all
    grantRounds this grant is a member of", and the cart store tests
    membership with [metadata.grants?.includes(grantId)] before it reads
    a round's predictions.  Here the test is missing: grant 2 is not in
    the grant list of round A's metadata, and the call still returns a
    summary for round A, where the claim has the round left out. *)
Lemma getGrantsGrantRoundDetails_summarises_other_rounds :
  isMember "2" sampleMetadata roundA = false /\
  getGrantsGrantRoundDetails (externals := wholeNumbers) "2" [roundA] sampleMetadata
    sampleCLRData sampleContributions
  = Returns
      [ {| detailsGrantId := "2";
           detailsAddress := "0xRoundA";
           detailsMetaPtr := "ipfs://roundA";
           detailsName := "Round A";
           detailsMatchingToken := dai;
           detailsDonationToken := dai;
           contributions := [];
           balance := "0.00";
           matching := None;
           prediction1 := None;
           prediction10 := None;
           prediction100 := None |} ].
Proof. split; vm_compute; reflexivity. Qed.

Lemma getGrantsGrantRoundDetails_one_summary_per_round_witness :
  forallb (summarisable (externals := wholeNumbers) "2" sampleMetadata sampleCLRData) [roundA] = true /\
  exists summaries,
    getGrantsGrantRoundDetails (externals := wholeNumbers) "2" [roundA] sampleMetadata
      sampleCLRData sampleContributions = Returns summaries /\
    map detailsAddress summaries = map address [roundA] /\
    Forall (fun s => detailsGrantId s = "2") summaries.
Proof.
  split; [reflexivity|].
  apply (getGrantsGrantRoundDetails_one_summary_per_round (externals := wholeNumbers)
           "2" [roundA] sampleMetadata sampleCLRData sampleContributions).
  reflexivity.
Defined.

(** The summary of grant 1 in round A. *)
Definition summaryOfGrant1 : GrantsRoundDetails Z := {|
  detailsGrantId := "1";
  detailsAddress := "0xRoundA";
  detailsMetaPtr := "ipfs://roundA";
  detailsName := "Round A";
  detailsMatchingToken := dai;
  detailsDonationToken := dai;
  contributions :=
    [ mkContribution "1" "0xAlice" 25 ["0xRoundA"] "0x01";
      mkContribution "1" "0xCarol" 17 ["0xRoundA"] "0x03" ];
  balance := "42.00";
  matching := Some "50.00";
  prediction1 := Some "1.00";
  prediction10 := Some "8.00";
  prediction100 := Some "40.00"
|}.

(** C9, as stated, fails.  The prediction of grant 1 in round A has a
    delta of 200 at the point 1000, which formats to "200.00"; the
    summary holds the match at point 0 and the deltas at 1, 10 and 100,
    and the delta at 1000 is in none of its fields. *)
Lemma getGrantsGrantRoundDetails_omits_point_1000 :
  atPoint 1000 predictionOfGrant1 = Some (mkPrediction 1000 250 200) /\
  formatNumber (Externals := wholeNumbers) (NumberIn 200) 2 = "200.00" /\
  getGrantsGrantRoundDetails (externals := wholeNumbers) "1" [roundA] sampleMetadata
    sampleCLRData sampleContributions
  = Returns [summaryOfGrant1] /\
  Some "200.00" ∉ [ matching summaryOfGrant1; prediction1 summaryOfGrant1;
                    prediction10 summaryOfGrant1; prediction100 summaryOfGrant1 ].
Proof.
  split; [reflexivity|]. split; [reflexivity|]. split; [vm_compute; reflexivity|].
  intros Hin. simpl in Hin.
  repeat (apply elem_of_cons in Hin as [Hin|Hin]; [discriminate|]).
  by apply elem_of_nil in Hin.
Qed.

Lemma getGrantsGrantRoundDetails_reports_three_deltas_witness :
  exists summaries s at0 at1 at10 at100,
    getGrantsGrantRoundDetails (externals := wholeNumbers) "1" [roundA] sampleMetadata
      sampleCLRData sampleContributions = Returns summaries /\
    summaries !! 0%nat = Some s /\
    atPoint 0 predictionOfGrant1 = Some at0 /\ atPoint 1 predictionOfGrant1 = Some at1 /\
    atPoint 10 predictionOfGrant1 = Some at10 /\ atPoint 100 predictionOfGrant1 = Some at100 /\
    matching s
      = Some (formatNumber (Externals := wholeNumbers) (NumberIn (predictedGrantMatch at0)) 2) /\
    prediction1 s
      = Some (formatNumber (Externals := wholeNumbers) (NumberIn (predictionDiff at1)) 2) /\
    prediction10 s
      = Some (formatNumber (Externals := wholeNumbers) (NumberIn (predictionDiff at10)) 2) /\
    prediction100 s
      = Some (formatNumber (Externals := wholeNumbers) (NumberIn (predictionDiff at100)) 2).
Proof.
  apply (getGrantsGrantRoundDetails_reports_three_deltas (externals := wholeNumbers)
           "1" [roundA] sampleMetadata sampleCLRData sampleContributions 0%nat roundA
           (mkGrantRoundCLR "0xRoundA" 1000 18 sampleContributions
              (Some {[ "1" := predictionOfGrant1 ]}))
           {[ "1" := predictionOfGrant1 ]} predictionOfGrant1);
    reflexivity.
Defined.

Lemma getGrantsGrantRoundDetails_missing_entry_throws_witness :
  roundB ∈ [roundA; roundB] /\
  sampleCLRData !! address roundB = None /\
  getGrantsGrantRoundDetails (externals := wholeNumbers) "2" [roundA; roundB] sampleMetadata
    sampleCLRData sampleContributions = Throws TypeError.
Proof.
  assert (Hin : roundB ∈ [roundA; roundB]) by (right; left).
  assert (Hnone : sampleCLRData !! address roundB = None) by reflexivity.
  split; [exact Hin|]. split; [exact Hnone|].
  exact (getGrantsGrantRoundDetails_missing_entry_throws (externals := wholeNumbers)
           "2" [roundA; roundB] sampleMetadata sampleCLRData sampleContributions roundB
           Hin Hnone).
Defined.

End Aggregator.

(** * Further properties of the allocator *)
Module AllocatorMore.
Import Cart Allocator.

(** The sum of a group that has one member only. *)
Lemma tokenSum_single (donations : list Donation) : forall index d,
  donations !! index = Some d ->
  (forall other d', donations !! other = Some d' -> token d' = token d -> other = index) ->
  tokenSum donations (token d) = ratio d.
Proof.
  induction donations as [|d0 donations IH]; intros index d Hd Honly.
  - by destruct index.
  - rewrite tokenSum_cons. destruct index as [|index]; simpl in Hd.
    + injection Hd as ->. unfold share. rewrite decide_True by reflexivity.
      assert (Hrest : forall l, (forall other d', l !! other = Some d' -> token d' <> token d) ->
                                tokenSum l (token d) = 0).
      { induction l as [|x l IHl]; intros Hne; [reflexivity|].
        rewrite tokenSum_cons, IHl by (intros o d' Ho; exact (Hne (S o) d' Ho)).
        unfold share. rewrite decide_False by (exact (Hne 0%nat x eq_refl)). lia. }
      rewrite Hrest; [lia|].
      intros other d' Ho E. by specialize (Honly (S other) d' Ho E).
    + unfold share. rewrite decide_False.
      * rewrite (IH index d Hd); [lia|].
        intros other d' Ho E. specialize (Honly (S other) d' Ho E). lia.
      * intros E. by specialize (Honly 0%nat d0 eq_refl E).
Qed.



(** X2.  Under the precondition the function changes nothing but ratios, and
    it never lowers one: each donation comes back at its position with
    the same grant, token and rounds and a ratio at least as large. *)
Theorem fixDonationRoundingErrors_only_raises_ratios (donations : list Donation) :
  ratiosWithinWAD donations = true ->
  exists fixed,
    fixDonationRoundingErrors donations = Returns fixed /\
    Forall2 (fun d d' => grantId d' = grantId d /\ token d' = token d /\
                         rounds d' = rounds d /\ ratio d <= ratio d')
            donations fixed.
Proof.
  intros Hpre. pose proof (proj1 (ratiosWithinWAD_spec _) Hpre) as Hle.
  destruct (settleAll_returns donations donations [] Hle) as [fixed Hfixed].
  exists fixed. rewrite fixDonationRoundingErrors_settleAll. split; [assumption|].
  destruct (settleAll_lookup _ _ _ _ Hfixed) as [Hlen Hat].
  apply Forall2_same_length_lookup. split; [by symmetry|].
  intros index d d' Hd Hd'. rewrite (Hat _ _ Hd) in Hd'. injection Hd' as <-.
  assert (Hin : d ∈ donations) by (apply list_elem_of_lookup; eauto).
  specialize (Hle d Hin). unfold settle. case_decide; simpl; repeat split; lia.
Qed.

Lemma fixDonationRoundingErrors_only_raises_ratios_witness :
  exists fixed,
    fixDonationRoundingErrors threeDaiOneWeth = Returns fixed /\
    Forall2 (fun d d' => grantId d' = grantId d /\ token d' = token d /\
                         rounds d' = rounds d /\ ratio d <= ratio d')
            threeDaiOneWeth fixed.
Proof.
  apply (fixDonationRoundingErrors_only_raises_ratios threeDaiOneWeth). reflexivity.
Defined.

End AllocatorMore.

(** * Further properties of the round status *)
Module RoundStatusMore.
Import GrantRounds RoundStatus.

(** Upcoming, then Active, then Completed. *)
Definition stage (s : Status) : nat :=
  match s with Upcoming => 0 | Active => 1 | Completed => 2 end.

(** X3.  A round never goes back: as the clock advances the status stays or
    moves forward in the order Upcoming, Active, Completed, for any two
    timestamps, also when [endTime] is before [startTime]. *)
Theorem roundStatus_never_reverses (earlier later : Q) (startTime endTime : Z) :
  (earlier <= later)%Q ->
  (stage (roundStatus earlier startTime endTime)
   <= stage (roundStatus later startTime endTime))%nat.
Proof.
  intros Hle.
  destruct (roundStatus_cases earlier startTime endTime)
    as [(Hs & He & ->) | [(Hu & ->) | (Hs & He & ->)]];
  destruct (roundStatus_cases later startTime endTime)
    as [(Hs' & He' & ->) | [(Hu' & ->) | (Hs' & He' & ->)]]; simpl; try lia.
  - exfalso. apply (Qlt_not_le _ _ Hu'). by eapply Qle_trans.
  - exfalso. apply (Qlt_not_le _ _ He'). by eapply Qle_trans.
  - exfalso. apply (Qlt_not_le _ _ Hu'). by eapply Qle_trans.
Qed.

Lemma roundStatus_never_reverses_witness :
  (stage (roundStatus (unixNow 1633089600500) 1633046400 1634256000)
   <= stage (roundStatus (unixNow 1634256000000) 1633046400 1634256000))%nat.
Proof.
  apply (roundStatus_never_reverses (unixNow 1633089600500) (unixNow 1634256000000)).
  unfold unixNow, Qle. simpl. lia.
Defined.

End RoundStatusMore.

(** * Further properties of the aggregator *)
Module AggregatorMore.
Import GrantRounds Aggregator.

Section Facts.
Context {number : Type} {externals : Externals number}.

(** X4.  The call either returns, when every round of the list has a CLR
    entry and a metadata entry and the grant's prediction there, if any,
    has four samples, or it throws a [TypeError]; it never throws
    anything else. *)
Theorem getGrantsGrantRoundDetails_returns_or_TypeError (grantId : string)
    (rounds : list GrantRound)
    (roundsMetadata : gmap string GrantRoundMetadataResolution)
    (grantRoundsCLRData : gmap string (GrantRoundCLR number))
    (allContributions : list (Contribution number)) :
  (forallb (summarisable grantId roundsMetadata grantRoundsCLRData) rounds = true /\
   exists summaries,
     getGrantsGrantRoundDetails grantId rounds roundsMetadata grantRoundsCLRData
       allContributions = Returns summaries /\
     length summaries = length rounds) \/
  (forallb (summarisable grantId roundsMetadata grantRoundsCLRData) rounds = false /\
   getGrantsGrantRoundDetails grantId rounds roundsMetadata grantRoundsCLRData
     allContributions = Throws TypeError).
Proof.
  destruct (forallb (summarisable grantId roundsMetadata grantRoundsCLRData) rounds) eqn:Hall.
  - left. split; [reflexivity|].
    destruct (getGrantsGrantRoundDetails_returns _ _ _ _ allContributions Hall)
      as [summaries Hs].
    exists summaries. split; [assumption|].
    apply arrayMap_returns_inv in Hs. symmetry. by eapply Forall2_length.
  - right. split; [reflexivity|].
    destruct (getGrantsGrantRoundDetails grantId rounds roundsMetadata grantRoundsCLRData
                allContributions) as [summaries|e] eqn:Hrun.
    + assert (forallb (summarisable grantId roundsMetadata grantRoundsCLRData) rounds = true)
        by (eapply (proj1 (getGrantsGrantRoundDetails_returns_iff _ _ _ _ _)); eauto).
      congruence.
    + f_equal. unfold getGrantsGrantRoundDetails in Hrun.
      revert Hrun. generalize (filterContributionsByGrantId grantId allContributions).
      intros gc. clear Hall. induction rounds as [|round rounds IH]; simpl; [discriminate|].
      destruct (roundDetails grantId roundsMetadata grantRoundsCLRData gc round) eqn:Hr; simpl.
      * destruct (arrayMap _ rounds); simpl; [discriminate|].
        intros [= <-]. by apply IH.
      * intros [= <-]. by eapply roundDetails_throws.
Qed.

End Facts.

End AggregatorMore.

(** * The cart store keeps its three copies in sync *)
Module CartStoreFacts.
Import GrantRounds CartStore.

Section Facts.
Context {number : Type}.
Implicit Types (env : Env number) (store : Store number).
Implicit Types (item : newItem number) (newCart : list (newItem number)).

(** The localStorage form of a cart item. *)
Definition optionsOf (cartItem : CartItem number) : CartItemOptions number :=
  mkOptions (itemGrantId cartItem)
            (Some (tokenAddress (contributionToken cartItem)))
            (itemContributionAmount cartItem).

(** The three copies of the cart agree. *)
Definition inSync store : Prop :=
  lsCart store = map optionsOf (cart store) /\ localStorageCart store = lsCart store.

(** The cart item that [setCart] builds from an element of [newCart]. *)
Definition buildItem env item : option (CartItem number) :=
  token ← SUPPORTED_TOKENS_MAPPING env !! newItemTokenKey item;
  Some (mkItem (findGrant env (newItemGrantId item)) (newItemGrantId item)
               (newItemAmount item) token).

(** Every element names a token of the mapping. *)
Definition supported env newCart : bool :=
  forallb (fun item => bool_decide (is_Some (SUPPORTED_TOKENS_MAPPING env !! newItemTokenKey item)))
          newCart.

Lemma buildItem_lookup env item :
  buildItem env item =
    match SUPPORTED_TOKENS_MAPPING env !! newItemTokenKey item with
    | Some token =>
        Some (mkItem (findGrant env (newItemGrantId item)) (newItemGrantId item)
                     (newItemAmount item) token)
    | None => None
    end.
Proof. unfold buildItem. by destruct (SUPPORTED_TOKENS_MAPPING env !! newItemTokenKey item). Qed.

Lemma mapM_cons_option {A B} (f : A -> option B) (a : A) (l : list A) :
  mapM f (a :: l) =
    match f a with
    | Some b => match mapM f l with Some bs => Some (b :: bs) | None => None end
    | None => None
    end.
Proof. simpl. destruct (f a); [|reflexivity]. simpl. by destruct (mapM f l). Qed.

Lemma pushItems_built env newCart : forall acc,
  pushItems env acc newCart =
    match mapM (buildItem env) newCart with
    | Some cartItems => Returns (acc.1 ++ map optionsOf cartItems, acc.2 ++ cartItems)
    | None => Throws TypeError
    end.
Proof.
  induction newCart as [|item newCart IH]; intros [ls c].
  - simpl. by rewrite !app_nil_r.
  - rewrite mapM_cons_option, buildItem_lookup.
    change (pushItems env (ls, c) (item :: newCart))
      with (bind (pushItem env (ls, c) item) (fun acc' => pushItems env acc' newCart)).
    unfold pushItem.
    destruct (SUPPORTED_TOKENS_MAPPING env !! newItemTokenKey item) as [token|]; simpl;
      [|reflexivity].
    rewrite IH. destruct (mapM (buildItem env) newCart) as [cartItems|]; simpl;
      [|reflexivity].
    by rewrite <- !app_assoc.
Qed.

Lemma setCart_built env store newCart :
  setCart env store newCart =
    match mapM (buildItem env) newCart with
    | Some cartItems =>
        Returns (mkStore (map optionsOf cartItems) cartItems (map optionsOf cartItems)
                         (cartStatus store))
    | None => Throws TypeError
    end.
Proof.
  destruct newCart as [|item newCart]; [reflexivity|].
  unfold setCart.
  change (pushItems env ([], []) (item :: newCart) ≫= _) with
    (bind (pushItems env ([], []) (item :: newCart))
          (fun built => Returns (mkStore built.1 built.2 built.1 (cartStatus store)))).
  rewrite pushItems_built.
  by destruct (mapM (buildItem env) (item :: newCart)).
Qed.

Lemma mapM_buildItem_supported env newCart :
  supported env newCart = true ->
  exists cartItems,
    mapM (buildItem env) newCart = Some cartItems /\
    map itemGrantId cartItems = map newItemGrantId newCart /\
    map itemContributionAmount cartItems = map newItemAmount newCart /\
    Forall2 (fun item cartItem =>
               SUPPORTED_TOKENS_MAPPING env !! newItemTokenKey item
               = Some (contributionToken cartItem)) newCart cartItems.
Proof.
  induction newCart as [|item newCart IH]; intros Hs.
  - exists []. by repeat split.
  - change (supported env (item :: newCart))
      with (bool_decide (is_Some (SUPPORTED_TOKENS_MAPPING env !! newItemTokenKey item))
            && supported env newCart) in Hs.
    apply andb_true_iff in Hs as [Hitem Hrest].
    apply bool_decide_eq_true in Hitem as [token Htoken].
    destruct (IH Hrest) as (cartItems & Hm & Hids & Hamounts & Htokens).
    rewrite mapM_cons_option, buildItem_lookup, Htoken, Hm.
    eexists. split; [reflexivity|]. simpl. rewrite Hids, Hamounts.
    repeat split. by constructor.
Qed.

Lemma mapM_buildItem_unsupported env newCart item :
  item ∈ newCart ->
  SUPPORTED_TOKENS_MAPPING env !! newItemTokenKey item = None ->
  mapM (buildItem env) newCart = None.
Proof.
  intros Hin Hnone. apply mapM_None. apply Exists_exists.
  exists item. split; [assumption|]. by rewrite buildItem_lookup, Hnone.
Qed.

Lemma setCart_supported env store newCart :
  supported env newCart = true ->
  exists store',
    setCart env store newCart = Returns store' /\
    inSync store' /\
    map itemGrantId (cart store') = map newItemGrantId newCart /\
    map itemContributionAmount (cart store') = map newItemAmount newCart /\
    cartStatus store' = cartStatus store.
Proof.
  intros Hs. destruct (mapM_buildItem_supported env newCart Hs)
    as (cartItems & Hm & Hids & Hamounts & _).
  rewrite setCart_built, Hm. eexists. split; [reflexivity|].
  simpl. by repeat split.
Qed.

Lemma inSync_grantIds store :
  inSync store -> lsCartGrantIds store = map itemGrantId (cart store).
Proof.
  intros [Hls _]. unfold lsCartGrantIds. rewrite Hls, map_map. reflexivity.
Qed.

Lemma isInCart_inSync store (g : Z) :
  inSync store -> isInCart store g = bool_decide (g ∈ map itemGrantId (cart store)).
Proof. intros Hsync. unfold isInCart. by rewrite (inSync_grantIds _ Hsync). Qed.

Lemma supported_forall env newCart :
  supported env newCart = true <->
  forall item, item ∈ newCart ->
    is_Some (SUPPORTED_TOKENS_MAPPING env !! newItemTokenKey item).
Proof.
  unfold supported. rewrite forallb_forall. split; intros Hall item Hin.
  - apply list_elem_of_In in Hin. eapply bool_decide_eq_true_1, Hall, Hin.
  - apply list_elem_of_In in Hin. apply bool_decide_eq_true_2, Hall, Hin.
Qed.

(** X5.  [setCart] on a cart whose tokens are all in the mapping returns, and
    leaves the three copies in agreement: localStorage holds [lsCart],
    [lsCart] is [cart] item by item, and the grant ids and amounts are
    those of [newCart] in the same order. *)
Theorem setCart_keeps_in_sync env store newCart :
  supported env newCart = true ->
  exists store',
    setCart env store newCart = Returns store' /\
    inSync store' /\
    map itemGrantId (cart store') = map newItemGrantId newCart /\
    map itemContributionAmount (cart store') = map newItemAmount newCart /\
    cartStatus store' = cartStatus store.
Proof. apply setCart_supported. Qed.

(** X6.  [setCart] on a cart with an item whose token is not in the mapping
    throws a [TypeError]; nothing has been written by then. *)
Theorem setCart_unsupported_token_throws env store newCart item :
  item ∈ newCart ->
  SUPPORTED_TOKENS_MAPPING env !! newItemTokenKey item = None ->
  setCart env store newCart = Throws TypeError.
Proof.
  intros Hin Hnone.
  by rewrite setCart_built, (mapM_buildItem_unsupported _ _ _ Hin Hnone).
Qed.

(** The default token of a new item, DAI, is found and is in the mapping. *)
Definition daiSupported env : bool :=
  match List.find (fun token => bool_decide (symbol token = "DAI")) (SUPPORTED_TOKENS env) with
  | Some dai => bool_decide (is_Some (SUPPORTED_TOKENS_MAPPING env !! tokenAddress dai))
  | None => false
  end.

Lemma addToCart_present env store (g : Z) :
  g ∈ map itemGrantId (cart store) -> addToCart env store (Some g) = Returns store.
Proof. intros Hin. unfold addToCart. by rewrite bool_decide_eq_true_2. Qed.

Lemma addToCart_absent env store (g : Z) :
  g ∉ map itemGrantId (cart store) ->
  addToCart env store (Some g)
  = setCart env store
      (map inl (lsCart store) ++
       [inl (mkOptions g
               (tokenAddress <$> List.find (fun token => bool_decide (symbol token = "DAI"))
                                           (SUPPORTED_TOKENS env))
               (DEFAULT_CONTRIBUTION_AMOUNT env))]).
Proof. intros Hin. unfold addToCart. by rewrite bool_decide_eq_false_2. Qed.


(** X8.  With the tokens of the cart in the mapping, [removeFromCart] returns
    a store in sync from which the grant is gone and in which the other
    items keep their order and their amounts. *)
Theorem removeFromCart_removes env store (g : Z) :
  supported env (map inr (cart store)) = true ->
  exists store',
    removeFromCart env store (Some g) = Returns store' /\
    isInCart store' g = false /\
    inSync store' /\
    map itemGrantId (cart store')
      = map itemGrantId (filter (fun cartItem => itemGrantId cartItem <> g) (cart store)) /\
    map itemContributionAmount (cart store')
      = map itemContributionAmount
          (filter (fun cartItem => itemGrantId cartItem <> g) (cart store)).
Proof.
  intros Hsup. unfold removeFromCart.
  set (kept := filter (fun cartItem => itemGrantId cartItem <> g) (cart store)).
  assert (Hkept : supported env (map inr kept) = true).
  { apply supported_forall. intros item (cartItem & -> & Hin)%list_elem_of_fmap.
    apply (proj1 (supported_forall _ _) Hsup), list_elem_of_fmap.
    exists cartItem. split; [reflexivity|].
    by apply list_elem_of_filter in Hin as [_ Hin]. }
  destruct (setCart_supported env store (map inr kept) Hkept)
    as (store' & Hset & Hsync' & Hids & Hamounts & _).
  rewrite map_map in Hids, Hamounts. simpl in Hids, Hamounts.
  exists store'. repeat split; try assumption; try apply Hsync'.
  rewrite (isInCart_inSync _ g Hsync'), Hids.
  apply bool_decide_eq_false_2.
  intros (cartItem & Hg & Hin)%list_elem_of_fmap.
  apply list_elem_of_filter in Hin as [Hne _]. by apply Hne.
Qed.

End Facts.

(** ** The summary of the cart *)

(** The distinct elements of a list, in the order of their first
    occurrence. *)
Fixpoint firstOccurrences (l : list string) : list string :=
  match l with
  | [] => []
  | x :: l' => x :: filter (fun y => y <> x) (firstOccurrences l')
  end.

Lemma filter_all {A} (P : A -> Prop) `{forall x, Decision (P x)} (l : list A) :
  (forall x, P x) -> filter P l = l.
Proof.
  intros Hall. induction l as [|x l IH]; [reflexivity|].
  by rewrite filter_cons_True, IH.
Qed.

Lemma firstOccurrences_elem (l : list string) (x : string) :
  x ∈ firstOccurrences l <-> x ∈ l.
Proof.
  induction l as [|y l IH]; simpl; [reflexivity|].
  rewrite !elem_of_cons, list_elem_of_filter, IH.
  destruct (decide (x = y)); tauto.
Qed.

Lemma firstOccurrences_NoDup (l : list string) : NoDup (firstOccurrences l).
Proof.
  induction l as [|y l IH]; simpl; constructor.
  - rewrite list_elem_of_filter. tauto.
  - by apply NoDup_filter.
Qed.

(** Appending to a list the elements of another that it does not hold
    yet, one by one. *)
Lemma fold_new_keys (l : list string) : forall keys : list string,
  fold_left (fun keys x => if decide (x ∈ keys) then keys else keys ++ [x]) l keys
  = keys ++ filter (fun x => x ∉ keys) (firstOccurrences l).
Proof.
  induction l as [|x l IH]; intros keys; simpl.
  - by rewrite app_nil_r.
  - rewrite IH. case_decide as Hin.
    + rewrite filter_cons_False by tauto. f_equal.
      rewrite list_filter_filter. apply list_filter_iff.
      intros y. simpl. destruct (decide (y = x)) as [->|Hne]; tauto.
    + rewrite filter_cons_True by assumption.
      rewrite <- app_assoc. simpl. do 2 f_equal.
      rewrite list_filter_filter. apply list_filter_iff.
      intros y. simpl. rewrite not_elem_of_app, not_elem_of_cons.
      pose proof (not_elem_of_nil y). tauto.
Qed.

Section Summary.
Context {number : Type} {amounts : Amounts number}.
Implicit Types (cart : list (CartItem number)) (output : list (string * number)).

Definition tokenOf (cartItem : CartItem number) : string :=
  tokenAddress (contributionToken cartItem).

(** [output[tokenAddress]] *)
Fixpoint summaryOf (tokenAddress : string) output : option number :=
  match output with
  | [] => None
  | (key, total) :: output' =>
      if decide (key = tokenAddress) then Some total else summaryOf tokenAddress output'
  end.

(** The amounts of the items of a token, in cart order. *)
Definition amountsOf (tokenAddress : string) cart : list number :=
  map itemContributionAmount (filter (fun cartItem => tokenOf cartItem = tokenAddress) cart).

(** The sum of a list of amounts from left to right; nothing for no
    amounts. *)
Definition sumLeft (l : list number) : option number :=
  match l with
  | [] => None
  | first :: l' => Some (fold_left amount_add l' first)
  end.

Lemma addToSummary_keys output (key : string) (amount : number) :
  map fst (addToSummary output key amount)
  = if decide (key ∈ map fst output) then map fst output else map fst output ++ [key].
Proof.
  induction output as [|[k total] output IH].
  - reflexivity.
  - cbn [addToSummary]. destruct (decide (k = key)) as [E|Hne].
    + subst k. cbn [map fst]. rewrite decide_True by (by left). reflexivity.
    + cbn [map fst]. rewrite IH. destruct (decide (key ∈ map fst output)) as [Hin|Hin].
      * rewrite decide_True by (by right). reflexivity.
      * rewrite decide_False; [reflexivity|].
        intros [E|E]%elem_of_cons; [by symmetry in E | contradiction].
Qed.

Lemma addToSummary_lookup output (key tokenAddress : string) (amount : number) :
  summaryOf tokenAddress (addToSummary output key amount)
  = if decide (key = tokenAddress)
    then Some (match summaryOf tokenAddress output with
               | Some total => amount_add total amount
               | None => amount
               end)
    else summaryOf tokenAddress output.
Proof.
  induction output as [|[k total] output IH]; simpl.
  - by destruct (decide (key = tokenAddress)).
  - destruct (decide (k = key)) as [->|Hne]; simpl.
    + by destruct (decide (key = tokenAddress)).
    + rewrite IH. destruct (decide (k = tokenAddress)) as [->|Hne'];
        destruct (decide (key = tokenAddress)); congruence.
Qed.

Lemma summary_fold_keys cart : forall output,
  map fst (fold_left (fun output cartItem =>
                        addToSummary output (tokenOf cartItem)
                                     (itemContributionAmount cartItem)) cart output)
  = fold_left (fun keys x => if decide (x ∈ keys) then keys else keys ++ [x])
              (map tokenOf cart) (map fst output).
Proof.
  induction cart as [|cartItem cart IH]; intros output; simpl; [reflexivity|].
  by rewrite IH, addToSummary_keys.
Qed.

Lemma summary_fold_lookup (tokenAddress : string) cart : forall output,
  summaryOf tokenAddress
    (fold_left (fun output cartItem =>
                  addToSummary output (tokenOf cartItem)
                               (itemContributionAmount cartItem)) cart output)
  = match amountsOf tokenAddress cart with
    | [] => summaryOf tokenAddress output
    | first :: rest =>
        Some (fold_left amount_add rest
                (match summaryOf tokenAddress output with
                 | Some total => amount_add total first
                 | None => first
                 end))
    end.
Proof.
  unfold amountsOf.
  induction cart as [|cartItem cart IH]; intros output; simpl; [reflexivity|].
  rewrite IH, addToSummary_lookup, filter_cons.
  destruct (decide (tokenOf cartItem = tokenAddress)) as [E|E]; simpl; [|reflexivity].
  by destruct (map itemContributionAmount
                 (filter (fun cartItem0 => tokenOf cartItem0 = tokenAddress) cart)).
Qed.

(** X9.  [cartSummary] has one entry for each token of the cart, in the order
    in which the tokens first appear, and the entry of a token is the
    sum of the amounts of its items, added from left to right; a token
    that is not in the cart has no entry. *)
Theorem cartSummary_totals cart :
  map fst (cartSummary cart) = firstOccurrences (map tokenOf cart) /\
  NoDup (map fst (cartSummary cart)) /\
  forall tokenAddress,
    summaryOf tokenAddress (cartSummary cart) = sumLeft (amountsOf tokenAddress cart).
Proof.
  assert (Hkeys : map fst (cartSummary cart) = firstOccurrences (map tokenOf cart)).
  { unfold cartSummary. fold tokenOf.
    change (fun output item => addToSummary output (tokenAddress (contributionToken item))
                                            (itemContributionAmount item))
      with (fun output cartItem => addToSummary output (tokenOf cartItem)
                                                (itemContributionAmount cartItem)).
    rewrite summary_fold_keys, fold_new_keys. simpl.
    apply filter_all. intros x. apply not_elem_of_nil. }
  split; [exact Hkeys|]. split; [rewrite Hkeys; apply firstOccurrences_NoDup|].
  intros tokenAddress. unfold cartSummary.
  change (fun output item => addToSummary output (GrantRounds.tokenAddress (contributionToken item))
                                          (itemContributionAmount item))
    with (fun output cartItem => addToSummary output (tokenOf cartItem)
                                              (itemContributionAmount cartItem)).
  rewrite summary_fold_lookup. simpl.
  by destruct (amountsOf tokenAddress cart).
Qed.

(** ** The summary as a string *)

Lemma string_app_cons (c : Ascii.ascii) (s t : string) :
  String c s +:+ t = String c (s +:+ t).
Proof. reflexivity. Qed.

Lemma string_app_nil_l (t : string) : "" +:+ t = t.
Proof. reflexivity. Qed.

Lemma string_app_assoc (s t u : string) : (s +:+ t) +:+ u = s +:+ t +:+ u.
Proof.
  induction s as [|c s IH]; [reflexivity|].
  by rewrite !string_app_cons, IH.
Qed.

Lemma string_app_nil_r (s : string) : s +:+ "" = s.
Proof.
  induction s as [|c s IH]; [reflexivity|].
  by rewrite string_app_cons, IH.
Qed.

Lemma string_length_app (s t : string) :
  String.length (s +:+ t) = (String.length s + String.length t)%nat.
Proof.
  induction s as [|c s IH]; [reflexivity|].
  rewrite string_app_cons. simpl. by rewrite IH.
Qed.

Lemma substring_prefix (s t : string) :
  String.substring 0 (String.length s) (s +:+ t) = s.
Proof.
  induction s as [|c s IH].
  - rewrite string_app_nil_l. by destruct t.
  - rewrite string_app_cons. simpl. by rewrite IH.
Qed.

(** [slice(0, -3)] removes the separator that ends the reduced string. *)
Lemma sliceOffLast3_separator (s : string) : sliceOffLast3 (s +:+ " + ") = s.
Proof.
  unfold sliceOffLast3. rewrite string_length_app. simpl.
  replace (String.length s + 3 - 3)%nat with (String.length s) by lia.
  apply substring_prefix.
Qed.

(** The text of an entry of the summary, "amount symbol"; a total that is
    not above 0 is shown as 0. *)
Definition entryText (env : Env number) (entry : string * number) : option string :=
  token ← SUPPORTED_TOKENS_MAPPING env !! entry.1;
  Some (amount_toString (if amount_gtb entry.2 amount_zero then entry.2 else amount_zero)
        +:+ " " +:+ symbol token).

Lemma entryText_lookup (env : Env number) (entry : string * number) :
  entryText env entry =
    match SUPPORTED_TOKENS_MAPPING env !! entry.1 with
    | Some token =>
        Some (amount_toString
                (if amount_gtb entry.2 amount_zero then entry.2 else amount_zero)
              +:+ " " +:+ symbol token)
    | None => None
    end.
Proof. unfold entryText. by destruct (SUPPORTED_TOKENS_MAPPING env !! entry.1). Qed.

(** The texts, each followed by the separator. *)
Fixpoint separated (texts : list string) : string :=
  match texts with
  | [] => ""
  | text :: texts' => text +:+ " + " +:+ separated texts'
  end.

Lemma separated_concat (text : string) (texts : list string) :
  separated (text :: texts) = String.concat " + " (text :: texts) +:+ " + ".
Proof.
  revert text. induction texts as [|text' texts IH]; intros text.
  - simpl. by rewrite string_app_nil_r.
  - change (separated (text :: text' :: texts))
      with (text +:+ " + " +:+ separated (text' :: texts)).
    rewrite IH.
    change (String.concat " + " (text :: text' :: texts))
      with (text +:+ " + " +:+ String.concat " + " (text' :: texts)).
    by rewrite !string_app_assoc.
Qed.

Lemma reduceSummary_texts (env : Env number) entries : forall acc : string,
  reduceSummary env acc entries =
    match mapM (entryText env) entries with
    | Some texts => Returns (acc +:+ separated texts)
    | None => Throws TypeError
    end.
Proof.
  induction entries as [|entry entries IH]; intros acc.
  - simpl. by rewrite string_app_nil_r.
  - rewrite mapM_cons_option.
    change (reduceSummary env acc (entry :: entries))
      with (bind (appendSummary env acc entry) (fun acc' => reduceSummary env acc' entries)).
    rewrite entryText_lookup. unfold appendSummary.
    destruct (SUPPORTED_TOKENS_MAPPING env !! entry.1) as [token|]; [|reflexivity].
    cbn [bind]. rewrite IH.
    destruct (mapM (entryText env) entries) as [texts|]; [|reflexivity].
    cbn [separated]. by rewrite !string_app_assoc.
Qed.

(** X10.  [cartSummaryString] is the texts of the entries of the summary, in
    order, joined by " + " with no separator at either end, and the
    empty string for an empty cart; it throws a [TypeError] when the
    token of an entry is not in the mapping. *)
Theorem cartSummaryString_joins (env : Env number) cart :
  cartSummaryString env cart =
    match mapM (entryText env) (cartSummary cart) with
    | Some texts => Returns (String.concat " + " texts)
    | None => Throws TypeError
    end.
Proof.
  unfold cartSummaryString. rewrite reduceSummary_texts.
  destruct (mapM (entryText env) (cartSummary cart)) as [[|text texts]|]; simpl;
    [reflexivity | | reflexivity].
  f_equal. change (text +:+ " + " +:+ separated texts) with (separated (text :: texts)).
  rewrite separated_concat. apply sliceOffLast3_separator.
Qed.

End Summary.

(** ** Editing an amount *)

Section Editing.
Context {number : Type} {edits : Edits number}.
Implicit Types (env : Env number) (store : Store number).

Lemma map_alter_same {A B} (f : A -> B) (g : A -> A) (l : list A) : forall index,
  (forall x, f (g x) = f x) -> map f (alter g index l) = map f l.
Proof.
  induction l as [|x l IH]; intros index Hfg; [reflexivity|].
  destruct index as [|index]; cbn; [by rewrite Hfg|].
  f_equal. by apply IH.
Qed.

Lemma map_alter_insert {A B} (f : A -> B) (g : A -> A) (b : B) (l : list A) : forall index,
  (forall x, f (g x) = b) -> map f (alter g index l) = <[index := b]> (map f l).
Proof.
  induction l as [|x l IH]; intros index Hfg; [reflexivity|].
  destruct index as [|index]; cbn; [by rewrite Hfg|].
  f_equal. by apply IH.
Qed.

Lemma writeAtGrant_withAmount_keys (g : Z) (amount : number)
    (items : list (CartItemOptions number)) :
  map newItemTokenKey (map inl (writeAtGrant g (withAmount amount) items))
  = map newItemTokenKey (map inl items) /\
  map grantId (writeAtGrant g (withAmount amount) items) = map grantId items.
Proof.
  unfold writeAtGrant.
  destruct (list_find (fun item => grantId item = g) items) as [[index found]|];
    [|by split].
  rewrite !map_map. split; by apply map_alter_same.
Qed.

Lemma supported_keys env (newCart newCart' : list (newItem number)) :
  map newItemTokenKey newCart' = map newItemTokenKey newCart ->
  supported env newCart = true -> supported env newCart' = true.
Proof.
  intros Hkeys Hs. apply supported_forall. intros item Hin.
  assert (Hkey : newItemTokenKey item ∈ map newItemTokenKey newCart).
  { rewrite <- Hkeys. apply list_elem_of_fmap. eauto. }
  apply list_elem_of_fmap in Hkey as (item' & -> & Hin').
  by apply (proj1 (supported_forall _ _) Hs).
Qed.

(** X11.  With the tokens of [lsCart] in the mapping, [updateCart] with a
    number returns a store in sync with the same grants in the same
    order, in which the first item of the grant has the new amount and
    every other amount is as before; for a grant that is not in the cart
    no amount changes. *)
Theorem updateCart_amount env store (g : Z) (amount : number) :
  supported env (map inl (lsCart store)) = true ->
  exists store',
    updateCart env store g (inr amount) = (store', None) /\
    inSync store' /\
    lsCartGrantIds store' = lsCartGrantIds store /\
    map contributionAmount (lsCart store')
    = match list_find (fun item => grantId item = g) (lsCart store) with
      | Some (index, _) => <[index := amount]> (map contributionAmount (lsCart store))
      | None => map contributionAmount (lsCart store)
      end.
Proof.
  intros Hs. unfold updateCart.
  set (edited := writeAtGrant g (withAmount amount) (lsCart store)).
  destruct (writeAtGrant_withAmount_keys g amount (lsCart store)) as [Hkeys Hids].
  fold edited in Hkeys, Hids.
  pose proof (supported_keys env _ _ Hkeys Hs) as Hs'.
  destruct (setCart_supported env
              (mkStore edited (cart store) (localStorageCart store) (cartStatus store))
              (map inl edited) Hs') as (store' & -> & Hsync & Hids' & Hamounts & _).
  exists store'. split; [reflexivity|]. split; [assumption|].
  rewrite map_map in Hids', Hamounts. simpl in Hids', Hamounts.
  assert (Hls : map contributionAmount (lsCart store') = map contributionAmount edited).
  { destruct Hsync as [-> _]. rewrite map_map. simpl. exact Hamounts. }
  split.
  - rewrite (inSync_grantIds _ Hsync), Hids'. exact Hids.
  - rewrite Hls. unfold edited, writeAtGrant.
    destruct (list_find (fun item => grantId item = g) (lsCart store)) as [[index found]|];
      [|reflexivity].
    by apply map_alter_insert.
Qed.


End Editing.

(** ** A sample store, with whole amounts *)

Definition wholeAmounts : Amounts Z := {|
  amount_add := Z.add;
  amount_zero := 0;
  amount_gtb := Z.gtb;
  amount_toString := pretty
|}.

Definition daiToken : TokenInfo :=
  mkTokenInfo "0x6B175474E89094C44Da98b954EedeAC495271d0F" "DAI" 18.

Definition gtcToken : TokenInfo :=
  mkTokenInfo "0xDe30da39c46104798bB5aA3fe8B9e0e1F348163F" "GTC" 18.

Definition sampleEnv : Env Z := {|
  grants := Some [ mkGrant 1 "0xOwner1" "0xPayee1" "ipfs://grant1";
                   mkGrant 2 "0xOwner2" "0xPayee2" "ipfs://grant2" ];
  SUPPORTED_TOKENS := [gtcToken; daiToken];
  SUPPORTED_TOKENS_MAPPING :=
    {[ tokenAddress daiToken := daiToken; tokenAddress gtcToken := gtcToken ]};
  DEFAULT_CONTRIBUTION_AMOUNT := 5
|}.

(** A cart with grant 1 at 12 GTC. *)
Definition gtcItem : CartItem Z :=
  mkItem (Some (mkGrant 1 "0xOwner1" "0xPayee1" "ipfs://grant1")) 1 12 gtcToken.

Definition oneItemStore : Store Z :=
  mkStore [optionsOf gtcItem] [gtcItem] [optionsOf gtcItem] "".

(** An item in a token that the mapping does not have. *)
Definition unknownTokenItem : newItem Z :=
  inl (mkOptions 2 (Some "0x0000000000000000000000000000000000000001") 7).

Example addToCart_sample :
  addToCart sampleEnv oneItemStore (Some 2)
  = Returns
      (mkStore
         [ mkOptions 1 (Some (tokenAddress gtcToken)) 12;
           mkOptions 2 (Some (tokenAddress daiToken)) 5 ]
         [ gtcItem;
           mkItem (Some (mkGrant 2 "0xOwner2" "0xPayee2" "ipfs://grant2")) 2 5 daiToken ]
         [ mkOptions 1 (Some (tokenAddress gtcToken)) 12;
           mkOptions 2 (Some (tokenAddress daiToken)) 5 ]
         "").
Proof. vm_compute. reflexivity. Qed.

Example cartSummaryString_sample :
  cartSummaryString (amounts := wholeAmounts) sampleEnv
    [ gtcItem;
      mkItem None 2 5 daiToken;
      mkItem None 3 30 gtcToken;
      mkItem None 4 (-8) daiToken ]
  = Returns "42 GTC + 0 DAI".
Proof. vm_compute. reflexivity. Qed.

(** The imports of [updateCart] for the sample; a call with a number
    reads none of them. *)
Definition sampleEdits : Edits Z := {|
  toHex := fun text => Returns text;
  isAddress := fun hex => bool_decide (String.length hex = 42%nat);
  stringToNumber := fun _ => 0
|}.

(** A store whose only item is in a token that the mapping does not
    have. *)
Definition unknownTokenStore : Store Z :=
  mkStore [mkOptions 2 (Some "0x0000000000000000000000000000000000000001") 7] [] [] "".

Lemma updateCart_amount_witness :
  exists store',
    updateCart (edits := sampleEdits) sampleEnv oneItemStore 1 (inr 20) = (store', None) /\
    inSync store' /\
    lsCartGrantIds store' = lsCartGrantIds oneItemStore /\
    map contributionAmount (lsCart store')
    = match list_find (fun item => grantId item = 1) (lsCart oneItemStore) with
      | Some (index, _) => <[index := 20]> (map contributionAmount (lsCart oneItemStore))
      | None => map contributionAmount (lsCart oneItemStore)
      end.
Proof.
  apply (updateCart_amount (edits := sampleEdits) sampleEnv oneItemStore 1 20).
  reflexivity.
Defined.


Lemma setCart_keeps_in_sync_witness :
  exists store',
    setCart sampleEnv oneItemStore [inr gtcItem; inl (mkOptions 2 (Some (tokenAddress daiToken)) 5)]
      = Returns store' /\
    inSync store' /\
    map itemGrantId (cart store') = [1; 2] /\
    map itemContributionAmount (cart store') = [12; 5] /\
    cartStatus store' = cartStatus oneItemStore.
Proof.
  apply (setCart_keeps_in_sync sampleEnv oneItemStore
           [inr gtcItem; inl (mkOptions 2 (Some (tokenAddress daiToken)) 5)]).
  reflexivity.
Defined.

Lemma setCart_unsupported_token_throws_witness :
  setCart sampleEnv oneItemStore [inr gtcItem; unknownTokenItem] = Throws TypeError.
Proof.
  apply (setCart_unsupported_token_throws sampleEnv oneItemStore
           [inr gtcItem; unknownTokenItem] unknownTokenItem).
  - right. left.
  - reflexivity.
Defined.


Lemma removeFromCart_removes_witness :
  exists store',
    removeFromCart sampleEnv oneItemStore (Some 1) = Returns store' /\
    isInCart store' 1 = false /\
    inSync store' /\
    map itemGrantId (cart store')
      = map itemGrantId (filter (fun cartItem => itemGrantId cartItem <> 1) (cart oneItemStore)) /\
    map itemContributionAmount (cart store')
      = map itemContributionAmount
          (filter (fun cartItem => itemGrantId cartItem <> 1) (cart oneItemStore)).
Proof.
  apply (removeFromCart_removes sampleEnv oneItemStore 1). reflexivity.
Defined.

End CartStoreFacts.

(** * The donations of a cart sum to 100% per token *)
Module CheckoutFacts.
Import GrantRounds CartStore Checkout.
Import Cart Allocator.

(** The constants of the callback of [getCartDonationInputs] before the
    swap is looked up. *)
Record Resolved : Type := mkResolved {
  rGrantId : Z;
  rToken : string;
  rRounds : list string;
  rAmount : Z
}.

(** The donation of a resolved item for the input amount [total] of its
    swap. *)
Definition ratioDonation (total : string -> Z) (r : Resolved) : Donation :=
  mkDonation (rGrantId r) (rToken r) (Z.quot (rAmount r * WAD) (total (rToken r)))
             (rRounds r).

(** The total of the parsed amounts of a token, and the number of its
    items. *)
Fixpoint totalOf (tok : string) (rs : list Resolved) : Z :=
  match rs with
  | [] => 0
  | r :: rs' => (if decide (rToken r = tok) then rAmount r else 0) + totalOf tok rs'
  end.

Fixpoint countOf (tok : string) (rs : list Resolved) : Z :=
  match rs with
  | [] => 0
  | r :: rs' => (if decide (rToken r = tok) then 1 else 0) + countOf tok rs'
  end.

Lemma countOf_nonneg tok rs : 0 <= countOf tok rs.
Proof. induction rs as [|r rs IH]; simpl; [lia|]. case_decide; lia. Qed.

Lemma countOf_pos tok rs r : r ∈ rs -> rToken r = tok -> 1 <= countOf tok rs.
Proof.
  intros Hin Htok. induction rs as [|r' rs IH]; [by apply elem_of_nil in Hin|].
  simpl. pose proof (countOf_nonneg tok rs).
  apply elem_of_cons in Hin as [<-|Hin].
  - rewrite decide_True by assumption. lia.
  - specialize (IH Hin). case_decide; lia.
Qed.

Lemma countOf_length total tok rs :
  countOf tok rs
  = Z.of_nat (length (filter (fun d => token d = tok) (map (ratioDonation total) rs))).
Proof.
  induction rs as [|r rs IH]; [reflexivity|].
  cbn [countOf map]. rewrite filter_cons. simpl token.
  destruct (decide (rToken r = tok)); simpl; lia.
Qed.

(** Floor division loses less than one unit per item: the ratios of a
    token add up to at most [WAD] times its total, and miss it by less
    than one divisor per item. *)
Lemma floor_shares (total : string -> Z) (tok : string) (rs : list Resolved) :
  0 < total tok ->
  Forall (fun r => 0 <= rAmount r) rs ->
  tokenSum (map (ratioDonation total) rs) tok * total tok <= WAD * totalOf tok rs /\
  WAD * totalOf tok rs
  <= tokenSum (map (ratioDonation total) rs) tok * total tok
     + countOf tok rs * (total tok - 1).
Proof.
  intros Hpos Hnonneg. induction Hnonneg as [|r rs Hr _ IH].
  - simpl. rewrite tokenSum_nil. lia.
  - cbn [map totalOf countOf]. rewrite tokenSum_cons. unfold share. simpl token. simpl ratio.
    destruct (decide (rToken r = tok)) as [E|Hne]; [rewrite E|lia].
    assert (HW : 0 <= rAmount r * WAD) by (unfold WAD; lia).
    rewrite Z.quot_div_nonneg by lia.
    assert (Hnz : total tok <> 0) by lia.
    pose proof (Z.div_mod (rAmount r * WAD) (total tok) Hnz) as Hdm.
    pose proof (Z.mod_pos_bound (rAmount r * WAD) (total tok) Hpos) as Hm.
    nia.
Qed.

Section Facts.
Context {number : Type} {amounts : Amounts number} {ethers : Ethers}.
Context (chain : Chain) (env : Env number) (grantRounds : option (list GrantRound)).

(** The callback up to the parsed amount. *)
Definition resolveItem (item : CartItem number) : outcome Resolved :=
  let isEth :=
    bool_decide (tokenAddress (contributionToken item) = ETH_ADDRESS chain) in
  tokenAddress ← getAddress (Some (if isEth then WETH_ADDRESS chain
                                   else tokenAddress (contributionToken item)));
  rounds ← match grantRounds with
           | None => Returns []
           | Some [] => Throws TypeError
           | Some (round :: _) => Returns [address round]
           end;
  decimals ← (if isEth then Returns 18
              else match SUPPORTED_TOKENS_MAPPING env !! tokenAddress with
                   | None => Throws TypeError
                   | Some token => Returns (decimals token)
                   end);
  donationAmount ← parseUnits (amount_toString (itemContributionAmount item)) decimals;
  Returns (mkResolved (itemGrantId item) tokenAddress rounds donationAmount).

(** The rest of the callback. *)
Definition priceItem (swaps : list Swap) (r : Resolved) : outcome Donation :=
  swap ← findSwap (rToken r) swaps;
  match swap with
  | None => Throws (Error "Could not find matching swap for donation")
  | Some swap =>
      ratio ← bigDiv (rAmount r * WAD) (amountIn swap);
      Returns (mkDonation (rGrantId r) (rToken r) ratio (rRounds r))
  end.

Lemma donationOf_resolved (swaps : list Swap) (item : CartItem number) :
  donationOf chain env grantRounds swaps item = resolveItem item ≫= priceItem swaps.
Proof.
  unfold donationOf, resolveItem, priceItem.
  destruct (getAddress _) as [tokenAddress|]; [|reflexivity]. cbn [mbind outcome_bind bind].
  destruct grantRounds as [[|round rounds]|]; cbn [mbind outcome_bind bind];
    try reflexivity.
  all: destruct (if bool_decide _ then _ else _) as [decimals|];
    cbn [mbind outcome_bind bind]; [|reflexivity].
  all: destruct (parseUnits _ _) as [donationAmount|]; reflexivity.
Qed.

(** Every resolved item has a swap for its token, and the input amount
    of that swap is the total of the token in the cart. *)
Definition swapsAtTotals (swaps : list Swap) (rs : list Resolved) : Prop :=
  Forall (fun r => exists swap,
            findSwap (rToken r) swaps = Returns (Some swap) /\
            amountIn swap = totalOf (rToken r) rs) rs.

(** The swaps price every resolved item at the total of its token, and
    that total is positive. *)
Definition pricedAtTotals (swaps : list Swap) (rs : list Resolved) : Prop :=
  Forall (fun r => exists swap,
            findSwap (rToken r) swaps = Returns (Some swap) /\
            amountIn swap = totalOf (rToken r) rs /\
            0 < amountIn swap) rs.

Lemma pricedAtTotals_positive (swaps : list Swap) (rs : list Resolved) :
  Forall (fun r => 0 < totalOf (rToken r) rs) rs ->
  swapsAtTotals swaps rs ->
  pricedAtTotals swaps rs.
Proof.
  intros Hpos Hswaps. apply Forall_forall. intros r Hin.
  destruct (proj1 (Forall_forall _ _) Hswaps r Hin) as (swap & Hfind & Htotal).
  pose proof (proj1 (Forall_forall _ _) Hpos r Hin) as Hr.
  exists swap. rewrite Htotal. auto.
Qed.

Lemma priceItem_total (swaps : list Swap) (rs : list Resolved) (r : Resolved) :
  pricedAtTotals swaps rs -> r ∈ rs ->
  priceItem swaps r = Returns (ratioDonation (fun tok => totalOf tok rs) r).
Proof.
  intros Hpriced Hin.
  destruct (proj1 (Forall_forall _ _) Hpriced r Hin) as (swap & Hfind & Htotal & Hpos).
  unfold priceItem, bigDiv. rewrite Hfind. cbn [mbind outcome_bind bind].
  destruct (Z.eqb_spec (amountIn swap) 0); [lia|].
  unfold ratioDonation. by rewrite Htotal.
Qed.

Lemma arrayMap_then {A B C} (f : A -> outcome B) (g : B -> outcome C) (h : B -> C)
    (l : list A) : forall bs,
  arrayMap f l = Returns bs ->
  (forall b, b ∈ bs -> g b = Returns (h b)) ->
  arrayMap (fun a => f a ≫= g) l = Returns (map h bs).
Proof.
  induction l as [|a l IH]; intros bs; simpl.
  - intros [= <-] _. reflexivity.
  - intros (b & Hb & (bs' & Hbs' & [= <-])%bind_returns)%bind_returns Hg.
    rewrite Hb. cbn [mbind outcome_bind bind]. rewrite (Hg b) by (by left).
    cbn [mbind outcome_bind bind].
    rewrite (IH bs' Hbs') by (intros b' Hb'; apply Hg; by right).
    reflexivity.
Qed.

Lemma arrayMap_ext {A B} (f g : A -> outcome B) (l : list A) :
  (forall a, f a = g a) -> arrayMap f l = arrayMap g l.
Proof.
  intros Hfg. induction l as [|a l IH]; simpl; [reflexivity|]. by rewrite Hfg, IH.
Qed.

(** The donations before the fix: each ratio is the floor of the item's
    share of the total of its token. *)
Lemma donations_of_resolved (swaps : list Swap) (cart : list (CartItem number))
    (rs : list Resolved) :
  arrayMap resolveItem cart = Returns rs ->
  pricedAtTotals swaps rs ->
  arrayMap (donationOf chain env grantRounds swaps) cart
  = Returns (map (ratioDonation (fun tok => totalOf tok rs)) rs).
Proof.
  intros Hres Hpriced.
  rewrite (arrayMap_ext _ (fun item => resolveItem item ≫= priceItem swaps))
    by apply donationOf_resolved.
  apply arrayMap_then; [assumption|].
  intros r Hin. by apply priceItem_total.
Qed.

(** The ratios before the fix are within [WAD] per token, and miss it
    by less than the number of items of the token. *)
Lemma donations_shortfall (swaps : list Swap) (rs : list Resolved) (r : Resolved) :
  Forall (fun r => 0 <= rAmount r) rs ->
  pricedAtTotals swaps rs ->
  r ∈ rs ->
  let donations := map (ratioDonation (fun tok => totalOf tok rs)) rs in
  tokenSum donations (rToken r) <= WAD /\
  WAD - tokenSum donations (rToken r) < countOf (rToken r) rs.
Proof.
  intros Hnonneg Hpriced Hin donations.
  destruct (proj1 (Forall_forall _ _) Hpriced r Hin) as (swap & _ & Htotal & Hpos).
  rewrite Htotal in Hpos.
  destruct (floor_shares (fun tok => totalOf tok rs) (rToken r) rs Hpos Hnonneg)
    as [Hle Hge].
  fold donations in Hle, Hge.
  pose proof (countOf_pos (rToken r) rs r Hin eq_refl) as Hcount.
  split; nia.
Qed.


(** The callback throws nothing but what its parts throw. *)
Lemma arrayMap_throws_at {A B} (callback : A -> outcome B) (before after : list A)
    (a : A) (e : exn) :
  (forall a', a' ∈ before -> exists b, callback a' = Returns b) ->
  callback a = Throws e ->
  arrayMap callback (before ++ a :: after) = Throws e.
Proof.
  intros Hbefore Ha. induction before as [|a' before IH]; simpl.
  - by rewrite Ha.
  - destruct (Hbefore a') as [b ->]; [by left|]. cbn [mbind outcome_bind bind].
    rewrite IH by (intros x Hx; apply Hbefore; by right). reflexivity.
Qed.


End Facts.


(** ** A sample checkout *)

(** The digits of a whole number. *)
Fixpoint parseDigits (text : string) (acc : Z) : option Z :=
  match text with
  | EmptyString => Some acc
  | String c text' =>
      let digit := Z.of_nat (Ascii.nat_of_ascii c) - 48 in
      if (0 <=? digit) && (digit <=? 9) then parseDigits text' (10 * acc + digit) else None
  end.

(** Modelled from the spec: the functions of ethers for the sample, on
    addresses that are checksummed already and on amounts that are whole
    numbers.  [getAddress] returns its address, [hexDataSlice] cuts the
    bytes out of the hex text, [parseUnits] scales a whole number by the
    token's decimals. *)
Definition sampleEthers : Ethers := {|
  getAddress := fun address =>
    match address with
    | Some address => Returns address
    | None => Throws (Error "invalid address")
    end;
  hexDataSlice := fun bytes offset endOffset =>
    Returns ("0x" +:+ String.substring (2 + 2 * offset) (2 * (endOffset - offset)) bytes);
  parseUnits := fun text decimals =>
    match text with
    | EmptyString => Throws (Error "invalid decimal value")
    | _ => match parseDigits text 0 with
           | Some n => Returns (n * 10 ^ decimals)
           | None => Throws (Error "invalid decimal value")
           end
    end
|}.

Definition sampleChain : Chain :=
  mkChain "0xEeeeeEeeeEeEeeEeEeEeeEEEeeeeEeeeeeeeEEeE"
          "0xC02aaA39b223FE8D0A0e5C4F27eAD9083C756Cc2".

Definition ethToken : TokenInfo :=
  mkTokenInfo "0xEeeeeEeeeEeEeeEeEeEeeEEEeeeeEeeeeeeeEEeE" "ETH" 18.

(** Three items of 5 DAI each and one of 2 ETH. *)
Definition sampleCart : list (CartItem Z) :=
  [ mkItem None 1 5 CartStoreFacts.daiToken;
    mkItem None 2 5 CartStoreFacts.daiToken;
    mkItem None 7 2 ethToken;
    mkItem None 3 5 CartStoreFacts.daiToken ].

Definition sampleSwaps : list Swap :=
  [ mkSwap 15000000000000000000 15000000000000000000
      (PathV2 ["0x6B175474E89094C44Da98b954EedeAC495271d0F"]);
    mkSwap 2000000000000000000 5970000000000000000000
      (PathV3 "0xC02aaA39b223FE8D0A0e5C4F27eAD9083C756Cc2000bb86b175474e89094c44da98b954eedeac495271d0f") ].

Definition sampleResolved : list Resolved :=
  [ mkResolved 1 "0x6B175474E89094C44Da98b954EedeAC495271d0F" ["0xRoundA"] 5000000000000000000;
    mkResolved 2 "0x6B175474E89094C44Da98b954EedeAC495271d0F" ["0xRoundA"] 5000000000000000000;
    mkResolved 7 "0xC02aaA39b223FE8D0A0e5C4F27eAD9083C756Cc2" ["0xRoundA"] 2000000000000000000;
    mkResolved 3 "0x6B175474E89094C44Da98b954EedeAC495271d0F" ["0xRoundA"] 5000000000000000000 ].

Example getCartDonations_sample :
  getCartDonations (amounts := CartStoreFacts.wholeAmounts) (ethers := sampleEthers)
    sampleChain CartStoreFacts.sampleEnv (Some [Aggregator.roundA]) sampleSwaps sampleCart
  = Returns
      [ mkDonation 1 "0x6B175474E89094C44Da98b954EedeAC495271d0F" 333333333333333334 ["0xRoundA"];
        mkDonation 2 "0x6B175474E89094C44Da98b954EedeAC495271d0F" 333333333333333333 ["0xRoundA"];
        mkDonation 7 "0xC02aaA39b223FE8D0A0e5C4F27eAD9083C756Cc2" 1000000000000000000 ["0xRoundA"];
        mkDonation 3 "0x6B175474E89094C44Da98b954EedeAC495271d0F" 333333333333333333 ["0xRoundA"] ].
Proof. vm_compute. reflexivity. Qed.

(** A swap amount below the true total, as a float sum can give: the
    floor ratios exceed 100% and the checkout is refused. *)
Example getCartDonations_short_total :
  getCartDonations (amounts := CartStoreFacts.wholeAmounts) (ethers := sampleEthers)
    sampleChain CartStoreFacts.sampleEnv (Some [Aggregator.roundA])
    [ mkSwap 14999999999999999900 0 (PathV2 ["0x6B175474E89094C44Da98b954EedeAC495271d0F"]) ]
    [ mkItem None 1 5 CartStoreFacts.daiToken; mkItem None 2 10 CartStoreFacts.daiToken ]
  = Throws (Error "Ratios sum to greater than 100%").
Proof. vm_compute. reflexivity. Qed.

Lemma sampleResolved_priced :
  pricedAtTotals (ethers := sampleEthers) sampleSwaps sampleResolved.
Proof.
  unfold pricedAtTotals, sampleResolved.
  repeat apply List.Forall_cons; try apply List.Forall_nil.
  - exists (mkSwap 15000000000000000000 15000000000000000000
              (PathV2 ["0x6B175474E89094C44Da98b954EedeAC495271d0F"])).
    repeat split; vm_compute; reflexivity.
  - exists (mkSwap 15000000000000000000 15000000000000000000
              (PathV2 ["0x6B175474E89094C44Da98b954EedeAC495271d0F"])).
    repeat split; vm_compute; reflexivity.
  - exists (mkSwap 2000000000000000000 5970000000000000000000
              (PathV3 "0xC02aaA39b223FE8D0A0e5C4F27eAD9083C756Cc2000bb86b175474e89094c44da98b954eedeac495271d0f")).
    repeat split; vm_compute; reflexivity.
  - exists (mkSwap 15000000000000000000 15000000000000000000
              (PathV2 ["0x6B175474E89094C44Da98b954EedeAC495271d0F"])).
    repeat split; vm_compute; reflexivity.
Defined.

Lemma sampleResolved_nonneg : Forall (fun r => 0 <= rAmount r) sampleResolved.
Proof. unfold sampleResolved. repeat constructor; simpl; lia. Defined.

Lemma sampleResolved_positive :
  Forall (fun r => 0 < totalOf (rToken r) sampleResolved) sampleResolved.
Proof.
  unfold sampleResolved.
  repeat apply List.Forall_cons; try apply List.Forall_nil; vm_compute; reflexivity.
Defined.

Lemma sampleResolved_swaps :
  swapsAtTotals (ethers := sampleEthers) sampleSwaps sampleResolved.
Proof.
  eapply List.Forall_impl; [|exact sampleResolved_priced].
  intros r (swap & Hfind & Htotal & _). exists swap. split; assumption.
Defined.




End CheckoutFacts.

(** * Which carts are in a round *)
Module CartRoundsFacts.
Import GrantRounds CartStore CartRounds Aggregator.

Section Facts.
Context {number : Type}.
Implicit Types (grantRoundMetadata : MetadataGrants) (rounds : list GrantRound).
Implicit Types (cart : list (CartItem number)).

(** The grant is in the grant list of the round's metadata. *)
Definition inGrants grantRoundMetadata (grantId : Z) (round : GrantRound) : bool :=
  match grantRoundMetadata !! metaPtr round with
  | Some (Some grants) => bool_decide (grantId ∈ grants)
  | _ => false
  end.

Definition hasMetadata grantRoundMetadata (round : GrantRound) : bool :=
  bool_decide (is_Some (grantRoundMetadata !! metaPtr round)).

Lemma returns_bind {A B : Type} (a : A) (k : A -> outcome B) : Returns a ≫= k = k a.
Proof. reflexivity. Qed.

Lemma reduceOutcome_cons {A B : Type} (callback : B -> A -> outcome B) (initial : B)
    (a : A) (array : list A) :
  reduceOutcome callback initial (a :: array)
  = callback initial a ≫= fun next => reduceOutcome callback next array.
Proof. reflexivity. Qed.

Lemma inRoundStep_false grantRoundMetadata (grantId : Z) (round : GrantRound) :
  inRoundStep grantRoundMetadata grantId false round
  = match grantRoundMetadata !! metaPtr round with
    | None => Throws TypeError
    | Some None => Returns false
    | Some (Some grants) => Returns (bool_decide (grantId ∈ grants))
    end.
Proof. reflexivity. Qed.

Lemma reduce_inRound_true grantRoundMetadata (grantId : Z) rounds :
  reduceOutcome (inRoundStep grantRoundMetadata grantId) true rounds = Returns true.
Proof. induction rounds as [|round rounds IH]; [reflexivity | exact IH]. Qed.

Lemma reduce_inRound_all grantRoundMetadata (grantId : Z) rounds :
  forallb (hasMetadata grantRoundMetadata) rounds = true ->
  reduceOutcome (inRoundStep grantRoundMetadata grantId) false rounds
  = Returns (existsb (inGrants grantRoundMetadata grantId) rounds).
Proof.
  induction rounds as [|round rounds IH]; [reflexivity|].
  cbn [forallb existsb]. intros [Hround Hrest]%andb_true_iff.
  apply bool_decide_eq_true in Hround as [grants Hgrants].
  rewrite reduceOutcome_cons, inRoundStep_false. unfold inGrants at 1. rewrite Hgrants.
  destruct grants as [grants|]; rewrite returns_bind.
  - destruct (bool_decide (grantId ∈ grants)); cbn [orb].
    + apply reduce_inRound_true.
    + by apply IH.
  - cbn [orb]. by apply IH.
Qed.

Lemma reduce_inRound_throws grantRoundMetadata (grantId : Z) (before after : list GrantRound)
    (round : GrantRound) :
  forallb (hasMetadata grantRoundMetadata) before = true ->
  existsb (inGrants grantRoundMetadata grantId) before = false ->
  grantRoundMetadata !! metaPtr round = None ->
  reduceOutcome (inRoundStep grantRoundMetadata grantId) false (before ++ round :: after)
  = Throws TypeError.
Proof.
  intros Hmeta Hnot Hnone. induction before as [|round' before IH].
  - simpl. unfold inRoundStep. by rewrite Hnone.
  - cbn [forallb existsb] in Hmeta, Hnot.
    apply andb_true_iff in Hmeta as [Hround Hrest].
    apply orb_false_iff in Hnot as [Hnot' Hnot].
    apply bool_decide_eq_true in Hround as [grants Hgrants].
    cbn [app]. rewrite reduceOutcome_cons, inRoundStep_false. unfold inGrants in Hnot'.
    rewrite Hgrants in Hnot' |- *.
    destruct grants as [grants|]; rewrite returns_bind.
    + rewrite Hnot'. by apply IH.
    + by apply IH.
Qed.

Lemma reduce_inRound_throws_only grantRoundMetadata (grantId : Z) rounds :
  forall inRound e,
  reduceOutcome (inRoundStep grantRoundMetadata grantId) inRound rounds = Throws e ->
  e = TypeError.
Proof.
  induction rounds as [|round rounds IH]; intros inRound e; [discriminate|].
  rewrite reduceOutcome_cons. destruct inRound.
  - change (inRoundStep grantRoundMetadata grantId true round) with (Returns true).
    rewrite returns_bind. apply IH.
  - rewrite inRoundStep_false.
    destruct (grantRoundMetadata !! metaPtr round) as [[grants|]|].
    + rewrite returns_bind. apply IH.
    + rewrite returns_bind. apply IH.
    + intros H. cbn in H. congruence.
Qed.

Lemma fold_orb (l : list bool) : forall inRound,
  fold_left (fun inRound isInRound => inRound || isInRound) l inRound
  = inRound || existsb (fun isInRound => isInRound) l.
Proof.
  induction l as [|b l IH]; intros inRound; simpl; [by rewrite orb_false_r|].
  by rewrite IH, orb_assoc.
Qed.

(** X16.  When every round has metadata, [cartInRound] returns, and it returns
    true exactly when some item of the cart is in the grant list of some
    round; without rounds, or with an empty cart, it returns false. *)
Theorem cartInRound_spec grantRoundMetadata (grantRounds : option (list GrantRound)) cart :
  forallb (hasMetadata grantRoundMetadata) (default [] grantRounds) = true ->
  cartInRound grantRoundMetadata grantRounds cart
  = Returns (existsb (fun item =>
                        existsb (inGrants grantRoundMetadata (itemGrantId item))
                                (default [] grantRounds)) cart).
Proof.
  intros Hmeta. unfold cartInRound.
  assert (Hmap : arrayMap
            (fun item : CartItem number =>
               reduceOutcome (inRoundStep grantRoundMetadata (itemGrantId item)) false
                             (default [] grantRounds)) cart
          = Returns (map (fun item =>
                            existsb (inGrants grantRoundMetadata (itemGrantId item))
                                    (default [] grantRounds)) cart)).
  { induction cart as [|item cart IH]; [reflexivity|].
    cbn [arrayMap map]. rewrite (reduce_inRound_all _ _ _ Hmeta), IH. reflexivity. }
  rewrite Hmap, returns_bind, fold_orb. cbn [orb]. f_equal.
  clear Hmap. induction cart as [|item cart IH]; [reflexivity|].
  cbn [map existsb]. by rewrite IH.
Qed.

(** X17.  [cartInRound] has no guard for a round without metadata: it throws a
    [TypeError] as soon as the cart has an item that is in no round
    listed before such a round, whatever the other items are. *)
Theorem cartInRound_missing_metadata_throws grantRoundMetadata
    (before after : list GrantRound) (round : GrantRound) cart (item : CartItem number) :
  forallb (hasMetadata grantRoundMetadata) before = true ->
  grantRoundMetadata !! metaPtr round = None ->
  item ∈ cart ->
  existsb (inGrants grantRoundMetadata (itemGrantId item)) before = false ->
  cartInRound grantRoundMetadata (Some (before ++ round :: after)) cart = Throws TypeError.
Proof.
  intros Hmeta Hnone Hin Hnot. unfold cartInRound.
  rewrite (arrayMap_throws _ cart TypeError); [reflexivity | |].
  - intros item' e. apply reduce_inRound_throws_only.
  - exists item. split; [assumption|]. by apply reduce_inRound_throws.
Qed.

End Facts.

(** ** On the sample rounds *)

(** Round A lists grants 1 and 3, round B has no metadata. *)
Definition sampleGrants : MetadataGrants := {[ "ipfs://roundA" := Some [1; 3] ]}.

Lemma cartInRound_spec_witness :
  cartInRound sampleGrants (Some [roundA]) CheckoutFacts.sampleCart
  = Returns (existsb (fun item =>
                        existsb (inGrants sampleGrants (itemGrantId item))
                                (default [] (Some [roundA]))) CheckoutFacts.sampleCart).
Proof.
  apply (cartInRound_spec sampleGrants (Some [roundA]) CheckoutFacts.sampleCart).
  reflexivity.
Defined.

Lemma cartInRound_missing_metadata_throws_witness :
  cartInRound sampleGrants (Some ([roundA] ++ roundB :: [])) CheckoutFacts.sampleCart
  = Throws TypeError.
Proof.
  apply (cartInRound_missing_metadata_throws sampleGrants [roundA] [] roundB
           CheckoutFacts.sampleCart (mkItem None 2 5 CartStoreFacts.daiToken)).
  - reflexivity.
  - reflexivity.
  - right. left.
  - reflexivity.
Defined.

End CartRoundsFacts.

(** * Incremental synchronisation of the rounds *)
Module RoundSyncFacts.
Import RoundSync.

(** The events of the blocks [fromBlock] to [toBlock], both included. *)
Definition inBlocks (fromBlock toBlock : Z) (e : Event) : bool :=
  (fromBlock <=? eventBlockNumber e) && (eventBlockNumber e <=? toBlock).

(** A manager over a fixed log of events, in the order of their blocks. *)
Definition logQuery (log : list Event) : QueryFilter :=
  fun fromBlock toBlock => Returns (List.filter (inBlocks fromBlock toBlock) log).

Definition blockOrder (e e' : Event) : Prop := eventBlockNumber e <= eventBlockNumber e'.

(** The entry that is stored after a synchronisation at block [b]. *)
Definition storedAt (b : Z) (rounds : list (option string)) : LocalStorageData :=
  mkLocalStorageData (Some b) (Some (mkRoundAddresses (Some rounds))).

Lemma filter_ext_in {A : Type} (f g : A -> bool) (l : list A) :
  (forall a, In a l -> f a = g a) -> List.filter f l = List.filter g l.
Proof.
  induction l as [|a l IH]; intros H; [reflexivity|]. simpl.
  rewrite (H a (or_introl eq_refl)), IH; [reflexivity|].
  intros a' Ha'. apply H. by right.
Qed.

Lemma filter_none {A : Type} (f : A -> bool) (l : list A) :
  (forall a, In a l -> f a = false) -> List.filter f l = [].
Proof.
  induction l as [|a l IH]; intros H; [reflexivity|]. simpl.
  rewrite (H a (or_introl eq_refl)). apply IH. intros a' Ha'. apply H. by right.
Qed.

(** Two adjacent ranges of blocks of a sorted log give the events of
    their union, in order. *)
Lemma filter_adjacent (log : list Event) (a b c : Z) :
  Sorted.StronglySorted blockOrder log -> a <= b + 1 -> b <= c ->
  List.filter (inBlocks a b) log ++ List.filter (inBlocks (b + 1) c) log
  = List.filter (inBlocks a c) log.
Proof.
  intros Hsorted Hab Hbc. induction Hsorted as [|e log Hsorted IH Hfirst]; [reflexivity|].
  destruct (Z_le_gt_dec (eventBlockNumber e) b) as [Hle|Hgt].
  - cbn [List.filter].
    assert (inBlocks (b + 1) c e = false) as ->
      by (unfold inBlocks; apply andb_false_iff; left; lia).
    assert (inBlocks a c e = inBlocks a b e) as ->.
    { unfold inBlocks. f_equal. apply eq_true_iff_eq.
      rewrite !Z.leb_le. lia. }
    destruct (inBlocks a b e); cbn [app]; by rewrite IH.
  - rewrite (filter_none (inBlocks a b) (e :: log)).
    + cbn [app]. apply filter_ext_in. intros e' He'.
      assert (eventBlockNumber e <= eventBlockNumber e') as Hord.
      { destruct He' as [<-|He']; [lia|].
        rewrite List.Forall_forall in Hfirst. by apply Hfirst. }
      unfold inBlocks. f_equal. apply eq_true_iff_eq. rewrite !Z.leb_le. lia.
    + intros e' He'.
      assert (eventBlockNumber e <= eventBlockNumber e') as Hord.
      { destruct He' as [<-|He']; [lia|].
        rewrite List.Forall_forall in Hfirst. by apply Hfirst. }
      unfold inBlocks. apply andb_false_iff. right. apply Z.leb_gt. lia.
Qed.

Lemma orNumber_next (b fallback : Z) : 0 <= b -> orNumber (Some (b + 1)) fallback = b + 1.
Proof.
  intros Hb. unfold orNumber. destruct (Z.eqb_spec (b + 1) 0); [lia | reflexivity].
Qed.

Lemma orNumber_stored (b START_BLOCK : Z) :
  0 <= START_BLOCK <= b -> orNumber (Some b) START_BLOCK = b.
Proof.
  intros Hb. unfold orNumber. destruct (Z.eqb_spec b 0); [lia | reflexivity].
Qed.

(** The first synchronisation, without a stored entry: the rounds of the
    blocks after [START_BLOCK] up to the current block. *)
Lemma getAllGrantRounds_first (START_BLOCK : Z) (log : list Event) (b : Z)
    (forceRefresh save : bool) :
  0 <= START_BLOCK ->
  getAllGrantRounds START_BLOCK (Some (logQuery log)) b forceRefresh None save
  = Returns (map eventGrantRound (List.filter (inBlocks (START_BLOCK + 1) b) log),
             bool_decide (map eventGrantRound
                            (List.filter (inBlocks (START_BLOCK + 1) b) log) ≠ [])
             && save).
Proof.
  intros HSTART. unfold getAllGrantRounds.
  rewrite orb_true_r. cbn [orb mbind option_bind default].
  change (orNumber None START_BLOCK) with START_BLOCK.
  rewrite (orNumber_next START_BLOCK START_BLOCK HSTART). reflexivity.
Qed.

(** X18.  Synchronising at block [b1] and then, from what was stored, at a
    later block [b2] gives the rounds of all the events of the blocks
    after [START_BLOCK] up to [b2], each once and in the order of the
    log: no round is missed and none is listed twice, whether or not
    either run is forced and whether or not the first run saved. *)
Theorem getAllGrantRounds_incremental (START_BLOCK : Z) (log : list Event) (b1 b2 : Z)
    (force1 force2 save1 save2 : bool) :
  Sorted.StronglySorted blockOrder log ->
  0 <= START_BLOCK <= b1 -> b1 <= b2 ->
  exists rounds1 saved1 saved2,
    getAllGrantRounds START_BLOCK (Some (logQuery log)) b1 force1 None save1
    = Returns (rounds1, saved1) /\
    getAllGrantRounds START_BLOCK (Some (logQuery log)) b2 force2
      (if saved1 then Some (storedAt b1 rounds1) else None) save2
    = Returns (map eventGrantRound (List.filter (inBlocks (START_BLOCK + 1) b2) log),
               saved2).
Proof.
  intros Hsorted [HSTART Hb1] Hb2.
  eexists _, _, _. split; [by apply getAllGrantRounds_first|].
  destruct (bool_decide _ && save1) eqn:Hsaved.
  - unfold getAllGrantRounds, storedAt.
    cbn [mbind option_bind blockNumber data roundAddresses default].
    rewrite (orNumber_stored b1 START_BLOCK (conj HSTART Hb1)).
    assert (bool_decide (is_Some (Some (mkLocalStorageData (Some b1)
              (Some (mkRoundAddresses (Some (map eventGrantRound
                 (List.filter (inBlocks (START_BLOCK + 1) b1) log)))))))) = true) as ->
      by (apply bool_decide_eq_true_2; eauto).
    cbn [negb]. rewrite orb_false_r.
    destruct (force2 || (b1 <? b2)) eqn:Hrefresh.
    + rewrite (orNumber_next b1 START_BLOCK) by lia.
      unfold logQuery. cbn [mbind outcome_bind bind].
      unfold id. rewrite <- List.map_app, (filter_adjacent log (START_BLOCK + 1) b1 b2 Hsorted) by lia.
      reflexivity.
    + apply orb_false_iff in Hrefresh as [_ Hlt]. apply Z.ltb_ge in Hlt.
      assert (b2 = b1) as -> by lia. reflexivity.
  - rewrite getAllGrantRounds_first by assumption. reflexivity.
Qed.

(** X19.  Without a manager the callback returns only from a stored entry
    that is up to date and when no refresh is forced: it then returns
    the stored addresses, none when the entry holds no list, and calls
    [save] when there is one and the list is not empty.  In every other
    case, a forced refresh, no stored entry, or a stored block number
    (or [START_BLOCK] when it is 0 or [undefined]) behind the current
    block, it throws a [TypeError]. *)
Theorem getAllGrantRounds_without_manager (START_BLOCK currentBlock : Z)
    (forceRefresh : bool) (localStorageData : option LocalStorageData) (save : bool) :
  (forceRefresh = false /\
   exists stored,
     localStorageData = Some stored /\
     currentBlock <= orNumber (blockNumber stored) START_BLOCK /\
     getAllGrantRounds START_BLOCK None currentBlock forceRefresh localStorageData save
     = Returns (default [] (data stored ≫= roundAddresses),
                bool_decide (default [] (data stored ≫= roundAddresses) ≠ []) && save))
  \/
  (~ (forceRefresh = false /\
      exists stored,
        localStorageData = Some stored /\
        currentBlock <= orNumber (blockNumber stored) START_BLOCK) /\
   getAllGrantRounds START_BLOCK None currentBlock forceRefresh localStorageData save
   = Throws TypeError).
Proof.
  unfold getAllGrantRounds.
  destruct forceRefresh.
  { right. split; [intros [? _]; discriminate | reflexivity]. }
  destruct localStorageData as [stored|].
  2: { right. split; [intros (_ & stored & ? & _); discriminate | reflexivity]. }
  cbn [mbind option_bind orb].
  assert (bool_decide (is_Some (Some stored)) = true) as ->
    by (apply bool_decide_eq_true_2; eauto).
  cbn [negb orb].
  destruct (orNumber (blockNumber stored) START_BLOCK <? currentBlock) eqn:Hlt.
  - right. apply Z.ltb_lt in Hlt. split; [|reflexivity].
    intros (_ & stored' & [= <-] & Hle). lia.
  - left. apply Z.ltb_ge in Hlt. split; [reflexivity|].
    exists stored. split; [reflexivity|]. split; [assumption|]. reflexivity.
Qed.

(** ** On a sample log *)

Definition sampleLog : list Event :=
  [ mkEvent 12 (Some "0xRoundA"); mkEvent 15 (Some "0xRoundB"); mkEvent 15 None;
    mkEvent 21 (Some "0xRoundC") ].

Lemma sampleLog_sorted : Sorted.StronglySorted blockOrder sampleLog.
Proof.
  unfold sampleLog, blockOrder.
  repeat (apply Sorted.SSorted_cons; [|repeat apply List.Forall_cons; try apply List.Forall_nil; simpl; lia]).
  apply Sorted.SSorted_nil.
Defined.

Example getAllGrantRounds_sample :
  getAllGrantRounds 10 (Some (logQuery sampleLog)) 20 false
    (Some (storedAt 12 [Some "0xRoundA"])) true
  = Returns ([Some "0xRoundA"; Some "0xRoundB"; None], true).
Proof. reflexivity. Qed.

Lemma getAllGrantRounds_incremental_witness :
  exists rounds1 saved1 saved2,
    getAllGrantRounds 10 (Some (logQuery sampleLog)) 15 false None true
    = Returns (rounds1, saved1) /\
    getAllGrantRounds 10 (Some (logQuery sampleLog)) 21 true
      (if saved1 then Some (storedAt 15 rounds1) else None) true
    = Returns (map eventGrantRound (List.filter (inBlocks (10 + 1) 21) sampleLog),
               saved2).
Proof.
  apply (getAllGrantRounds_incremental 10 sampleLog 15 21 false true true true).
  - exact sampleLog_sorted.
  - lia.
  - lia.
Defined.

End RoundSyncFacts.
